(** * Verification of the logfunc-to-logger rewriter of refactoring_tools

    Shallow embedding of
    - [wsf_refactoring_tools/codemods/remove_logfunc.py]
      (class [ReplaceFuncWithLoggerCommand]),
    - [codemods/add_global_statements.py] (class [AddGlobalStatements]),
    together with the small parts of the Python runtime the code relies on
    ([ast.literal_eval] of a string literal, [repr] of a [str],
    [str.replace], [str.lower] and the [%] operator on a tuple of [str]). *)

From Stdlib Require Import String Ascii List Bool Arith Lia.
Import ListNotations.
Open Scope list_scope.
Open Scope string_scope.
Open Scope nat_scope.
Set Warnings "-register-all".
Set Warnings "-abstract-large-number".


(* ------------------------------------------------------------------ *)
(** ** Python string primitives *)

Module Py.

Definition is_digit (c : ascii) : bool :=
  let n := nat_of_ascii c in (48 <=? n) && (n <=? 57).

Definition ascii_in (c : ascii) (s : string) : bool :=
  existsb (Ascii.eqb c) (list_ascii_of_string s).

(** [str.lower] on the code points 0..255: the letters A..Z and the
    Latin-1 capitals 192..222 (except the multiplication sign 215) move up
    by 32; every other character is its own lower case. *)
Definition lower_char (c : ascii) : ascii :=
  let n := nat_of_ascii c in
  if ((65 <=? n) && (n <=? 90)) || ((192 <=? n) && (n <=? 222) && negb (n =? 215))
  then ascii_of_nat (n + 32) else c.

Fixpoint lower (s : string) : string :=
  match s with
  | EmptyString => EmptyString
  | String c r => String (lower_char c) (lower r)
  end.

(** [s.replace("{}", "%s")]: non-overlapping, left to right. *)
Fixpoint replace_braces (s : string) : string :=
  match s with
  | String "{" (String "}" r) => "%s" ++ replace_braces r
  | String c r => String c (replace_braces r)
  | EmptyString => EmptyString
  end.

(** Decimal rendering of a [nat], as [str(n)]. *)
Fixpoint digits_rev (fuel n : nat) : string :=
  match fuel with
  | 0 => EmptyString
  | S f =>
      let d := String (ascii_of_nat (48 + n mod 10)) EmptyString in
      if n <? 10 then d else digits_rev f (n / 10) ++ d
  end.

Definition str_of_nat (n : nat) : string := digits_rev (S n) n.

Definition hex_digit (n : nat) : ascii :=
  if n <? 10 then ascii_of_nat (48 + n) else ascii_of_nat (87 + n).

(** [repr] of one character of a [str] (code points 0..255), inside a
    literal delimited by [q]. *)
Definition repr_char (q c : ascii) : string :=
  let n := nat_of_ascii c in
  if Ascii.eqb c q || Ascii.eqb c "\" then String "\" (String c EmptyString)
  else if n =? 9 then "\t"
  else if n =? 10 then "\n"
  else if n =? 13 then "\r"
  else if (n <? 32) || ((127 <=? n) && (n <=? 160)) || (n =? 173)
  then String "\" (String "x" (String (hex_digit (n / 16))
                                (String (hex_digit (n mod 16)) EmptyString)))
  else String c EmptyString.

Fixpoint repr_body (q : ascii) (s : string) : string :=
  match s with
  | EmptyString => EmptyString
  | String c r => repr_char q c ++ repr_body q r
  end.

(** The double quote character, and the one-character string made of it. *)
Definition dq : ascii := ascii_of_nat 34.
Definition dqs : string := String dq EmptyString.

(** [repr(s)] for a [str]: single quotes, unless the text holds a single
    quote and no double quote. *)
Definition repr (s : string) : string :=
  let q := if ascii_in "'" s && negb (ascii_in dq s) then dq else "'"%char in
  String q (repr_body q s ++ String q EmptyString).

(** [ast.literal_eval] of the source text of a [SimpleString] node, that
    is of one string token (libcst keeps implicit concatenations in a
    [ConcatenatedString], so a second token after the first is not
    modelled and is a [SyntaxError] here).  Characters are the code points
    0..255.  The outcomes: a [str] value; a value outside the model (a
    [bytes] value, a [str] holding a code point above 255, an f-string, a
    [\N{...}] escape, whose Unicode name database is not modelled); a
    [SyntaxError]; the [ValueError] of a source holding a NUL character. *)
Definition LF : ascii := ascii_of_nat 10.
Definition CR : ascii := ascii_of_nat 13.

Inductive literal :=
| LStr (v : string)
| LOutside
| LSyntaxError
| LNullBytes.

(** The [str] value of an outcome, if it is one. *)
Definition lit_str (l : literal) : option string :=
  match l with LStr v => Some v | _ => None end.

(** The tokenizer's newline translation: CR LF and a lone CR become LF. *)
Fixpoint translate_newlines (s : string) : string :=
  match s with
  | EmptyString => EmptyString
  | String c r =>
      if Ascii.eqb c CR then
        match r with
        | String d r' =>
            if Ascii.eqb d LF then String LF (translate_newlines r')
            else String LF (translate_newlines r)
        | EmptyString => String LF EmptyString
        end
      else String c (translate_newlines r)
  end.

Definition is_quote (c : ascii) : bool := Ascii.eqb c "'" || Ascii.eqb c dq.

(** The string prefix: the characters before the first quote. *)
Fixpoint split_prefix (s : string) : string * string :=
  match s with
  | EmptyString => (EmptyString, EmptyString)
  | String c r =>
      if is_quote c then (EmptyString, s)
      else let '(p, t) := split_prefix r in (String c p, t)
  end.

(** The valid prefixes, in any letter case: none or [u] (a [str]), [r]
    (a raw [str]), [b] and [br]/[rb] ([bytes]), [f], [rf] and [fr]
    (f-strings); any other prefix, [ur] included, is a [SyntaxError]. *)
Inductive prefix_kind := PStr | PRaw | PBytes (raw : bool) | PFormat.

Definition prefix_of (p : string) : option prefix_kind :=
  let l := lower p in
  if String.eqb l "" || String.eqb l "u" then Some PStr
  else if String.eqb l "r" then Some PRaw
  else if String.eqb l "f" || String.eqb l "rf" || String.eqb l "fr" then Some PFormat
  else if String.eqb l "b" then Some (PBytes false)
  else if String.eqb l "br" || String.eqb l "rb" then Some (PBytes true)
  else None.

(** The body of a literal and the text after its closing quote(s).  A
    backslash takes the next character with it; a one-quote literal ends
    at its quote and cannot hold a raw newline; a triple-quoted literal
    ends at three quotes. *)
Definition scons (c : ascii) (o : option (string * string)) : option (string * string) :=
  match o with Some (b, t) => Some (String c b, t) | None => None end.

Fixpoint scan_single (q : ascii) (s : string) : option (string * string) :=
  match s with
  | EmptyString => None
  | String c r =>
      if Ascii.eqb c "\" then
        match r with
        | EmptyString => None
        | String d r' => scons c (scons d (scan_single q r'))
        end
      else if Ascii.eqb c q then Some (EmptyString, r)
      else if Ascii.eqb c LF then None
      else scons c (scan_single q r)
  end.

Fixpoint scan_triple (q : ascii) (s : string) : option (string * string) :=
  match s with
  | EmptyString => None
  | String c r =>
      if Ascii.eqb c "\" then
        match r with
        | EmptyString => None
        | String d r' => scons c (scons d (scan_triple q r'))
        end
      else if Ascii.eqb c q then
        match r with
        | String d1 (String d2 r2) =>
            if Ascii.eqb d1 q && Ascii.eqb d2 q then Some (EmptyString, r2)
            else scons c (scan_triple q r)
        | _ => scons c (scan_triple q r)
        end
      else scons c (scan_triple q r)
  end.

(** Escape decoding of a non-raw [str] body, as a state machine: after a
    backslash ([UEsc]) come a newline (a line continuation, dropped), one
    of the one-character escapes, one to three octal digits, [x], [u] and
    [U] with exactly 2, 4 and 8 hex digits, [N{name}]; any other character
    keeps the backslash.  A code point above 0x10FFFF, a truncated hex
    escape or an [N] not followed by a brace is a [SyntaxError]. *)
Definition hex_val (c : ascii) : option nat :=
  let n := nat_of_ascii c in
  if (48 <=? n) && (n <=? 57) then Some (n - 48)
  else if (97 <=? n) && (n <=? 102) then Some (n - 87)
  else if (65 <=? n) && (n <=? 70) then Some (n - 55)
  else None.

Definition oct_val (c : ascii) : option nat :=
  let n := nat_of_ascii c in
  if (48 <=? n) && (n <=? 55) then Some (n - 48) else None.

Definition lcons (c : ascii) (l : literal) : literal :=
  match l with LStr v => LStr (String c v) | _ => l end.

Definition emit (v : nat) (l : literal) : literal :=
  if v <? 256 then lcons (ascii_of_nat v) l
  else if 1114111 <? v then LSyntaxError
  else match l with LSyntaxError => LSyntaxError | _ => LOutside end.

Inductive umode := UText | UEsc | UHex (k acc : nat) | UOct (k acc : nat).

Definition simple_escape (c : ascii) : option ascii :=
  if Ascii.eqb c "\" || Ascii.eqb c "'" || Ascii.eqb c dq then Some c
  else if Ascii.eqb c "a" then Some (ascii_of_nat 7)
  else if Ascii.eqb c "b" then Some (ascii_of_nat 8)
  else if Ascii.eqb c "f" then Some (ascii_of_nat 12)
  else if Ascii.eqb c "n" then Some LF
  else if Ascii.eqb c "r" then Some CR
  else if Ascii.eqb c "t" then Some (ascii_of_nat 9)
  else if Ascii.eqb c "v" then Some (ascii_of_nat 11)
  else None.

Fixpoint unescape_m (m : umode) (s : string) : literal :=
  match s with
  | EmptyString =>
      match m with
      | UText => LStr EmptyString
      | UOct _ acc => emit acc (LStr EmptyString)
      | _ => LSyntaxError
      end
  | String c r =>
      let text_step :=
        if Ascii.eqb c "\" then unescape_m UEsc r else lcons c (unescape_m UText r) in
      match m with
      | UText => text_step
      | UEsc =>
          if Ascii.eqb c LF then unescape_m UText r
          else match simple_escape c with
               | Some e => lcons e (unescape_m UText r)
               | None =>
                   match oct_val c with
                   | Some d => unescape_m (UOct 1 d) r
                   | None =>
                       if Ascii.eqb c "x" then unescape_m (UHex 2 0) r
                       else if Ascii.eqb c "u" then unescape_m (UHex 4 0) r
                       else if Ascii.eqb c "U" then unescape_m (UHex 8 0) r
                       else if Ascii.eqb c "N" then
                         match r with String "{" _ => LOutside | _ => LSyntaxError end
                       else lcons "\" (lcons c (unescape_m UText r))
                   end
               end
      | UHex k acc =>
          match hex_val c with
          | Some d =>
              if k <=? 1 then emit (acc * 16 + d) (unescape_m UText r)
              else unescape_m (UHex (k - 1) (acc * 16 + d)) r
          | None => LSyntaxError
          end
      | UOct k acc =>
          match oct_val c with
          | Some d =>
              if 2 <=? k then emit (acc * 8 + d) (unescape_m UText r)
              else unescape_m (UOct (S k) (acc * 8 + d)) r
          | None => emit acc text_step
          end
      end
  end.

(** [literal_eval] strips leading spaces and tabs; after the token, the
    parser accepts blanks, newlines and comments (a backslash continuation
    there is not modelled). *)
Fixpoint lstrip_blanks (s : string) : string :=
  match s with
  | String c r => if ascii_in c (String " " (String (ascii_of_nat 9) EmptyString)) then lstrip_blanks r else s
  | EmptyString => EmptyString
  end.

Fixpoint trailing_ok (in_comment : bool) (s : string) : bool :=
  match s with
  | EmptyString => true
  | String c r =>
      if in_comment then trailing_ok (negb (Ascii.eqb c LF)) r
      else if Ascii.eqb c "#" then trailing_ok true r
      else if ascii_in c (String " " (String (ascii_of_nat 9) (String (ascii_of_nat 12) (String LF EmptyString))))
      then trailing_ok false r
      else false
  end.

(** A bytes literal: non-ASCII characters, or (not raw) a [\x] escape
    without two hex digits, are a [SyntaxError]. *)
Fixpoint bytes_check (raw : bool) (s : string) : bool :=
  match s with
  | EmptyString => true
  | String c r =>
      (nat_of_ascii c <? 128) &&
      if Ascii.eqb c "\" then
        match r with
        | String d r' =>
            (nat_of_ascii d <? 128) &&
            if negb raw && Ascii.eqb d "x" then
              match r' with
              | String h1 (String h2 r2) =>
                  match hex_val h1, hex_val h2 with
                  | Some _, Some _ => bytes_check raw r2
                  | _, _ => false
                  end
              | _ => false
              end
            else bytes_check raw r'
        | EmptyString => true
        end
      else bytes_check raw r
  end.

(** [ast.literal_eval(src)] for the text of a string token. *)
Definition literal_eval (src : string) : literal :=
  if ascii_in (ascii_of_nat 0) src then LNullBytes else
  let '(p, t) := split_prefix (translate_newlines (lstrip_blanks src)) in
  match prefix_of p, t with
  | Some k, String q r =>
      let scanned :=
        match r with
        | String a (String b r2) =>
            if Ascii.eqb a q && Ascii.eqb b q then scan_triple q r2 else scan_single q r
        | _ => scan_single q r
        end in
      match scanned with
      | Some (body, rest) =>
          if negb (trailing_ok false rest) then LSyntaxError else
          match k with
          | PStr => unescape_m UText body
          | PRaw => LStr body
          | PBytes raw => if bytes_check raw body then LOutside else LSyntaxError
          | PFormat => LOutside
          end
      | _ => LSyntaxError
      end
  | _, _ => LSyntaxError
  end.

(** Outcome of [fmt % ("string",) * n], the trial substitution. *)
Inductive fmt_err := FmtTypeError | FmtValueError.

Inductive pmode := PText | PStart | PFlags | PWidth | PDot | PPrec | PLen.

(** The [%] operator of [str] applied to a tuple of [n] [str] values,
    following CPython's [PyUnicode_Format]: a mapping key needs a mapping,
    [*] needs an [int], numeric and [%c] conversions need a number or a
    one-character string, [%s]/[%r]/[%a] accept a [str].  [%%] right after
    the [%] consumes no argument; after flags, width, precision or length
    the conversion character is read only once an argument is fetched (with
    none left, not enough arguments, a [TypeError]), and then [%], like any
    other unknown character, is a [ValueError].  A truncated directive is
    an incomplete format ([ValueError]) and leftover arguments are not all
    converted ([TypeError]). *)
Fixpoint pct (m : pmode) (s : list ascii) (n : nat) {struct s} : option fmt_err :=
  match s with
  | [] =>
      match m with
      | PText => if n =? 0 then None else Some FmtTypeError
      | _ => Some FmtValueError
      end
  | c :: r =>
      let conv :=
        match n with
        | 0 => Some FmtTypeError
        | S n' =>
            if ascii_in c "sra" then pct PText r n'
            else if ascii_in c "diuoxXeEfFgGc" then Some FmtTypeError
            else Some FmtValueError
        end in
      let after_prec := if ascii_in c "hlL" then pct PLen r n else conv in
      let after_width := if Ascii.eqb c "." then pct PDot r n else after_prec in
      let flags :=
        if ascii_in c "-+ #0" then pct PFlags r n
        else if Ascii.eqb c "*" then Some FmtTypeError
        else if is_digit c then pct PWidth r n
        else after_width in
      match m with
      | PText => if Ascii.eqb c "%" then pct PStart r n else pct PText r n
      | PStart =>
          if Ascii.eqb c "(" then Some FmtTypeError
          else if Ascii.eqb c "%" then pct PText r n
          else flags
      | PFlags => flags
      | PWidth => if is_digit c then pct PWidth r n else after_width
      | PDot =>
          if Ascii.eqb c "*" then Some FmtTypeError
          else if is_digit c then pct PPrec r n
          else after_prec
      | PPrec => if is_digit c then pct PPrec r n else after_prec
      | PLen => conv
      end
  end.

Definition percent_trial (fmt : string) (nargs : nat) : option fmt_err :=
  pct PText (list_ascii_of_string fmt) nargs.

End Py.

(* ------------------------------------------------------------------ *)
(** ** The syntax tree (the part of libcst's CST the codemod inspects) *)

Module Cst.

(** Source position [(line, column)], from [PositionProvider]. *)
Definition pos := (nat * nat)%type.
Definition nopos : pos := (0, 0).

(** [Arg.star]: no star, [*] or [**]. *)
Inductive star := NoStar | Star1 | Star2.

(** A [SimpleString] holds its source text, quotes included, as in libcst.
    [Tuple] is a tuple or list display (also as an assignment target),
    [Starred] its [*x] element, [NamedExpr] the assignment expression
    [target := value].  [Lambda] (with the default values of its
    parameters) and [Comp] (a list, set or dict comprehension or a
    generator expression) open a scope of their own and carry a node
    identity; [Comp id elts target iter rest] lists its children in CST
    order: the element(s), the first [for] target, the first iterable,
    then the conditions and the inner [for] clauses.  [OtherExpr] stands
    for every other expression, with its children: it binds no name and
    opens no scope. *)
Inductive expr :=
| Name (p : pos) (value : string)
| SimpleString (value : string)
| Attribute (value : expr) (attr : string)
| Call (p : pos) (func : expr) (args : list arg)
| Tuple (elts : list expr)
| Starred (value : expr)
| NamedExpr (target : expr) (value : expr)
| Lambda (id : nat) (defaults : list expr) (body : expr)
| Comp (id : nat) (elts : list expr) (target : expr) (iter : expr) (rest : list expr)
| OtherExpr (children : list expr)
with arg :=
| Arg (keyword : option string) (st : star) (value : expr).

(** Statements; [Assign], [FunctionDef] and handlers carry a node identity
    (Python compares these nodes by identity).  [Import names] lists the
    names the import binds, as the scope analysis records them (for
    [import a.b], the dotted names [a.b] and [a]).  [Parsed src] is the
    statement [cst.parse_statement(src)].  Other statement forms (for,
    while, if, with, class, global, ...) are not in the modelled
    language. *)
Inductive stmt :=
| Expr (e : expr)
| Assign (id : nat) (targets : list expr) (value : expr)
| Import (names : list string)
| FunctionDef (id : nat) (name : string) (body : list stmt)
| Try (body : list stmt) (handlers : list handler)
| Parsed (src : string)
with handler :=
| ExceptHandler (type : option expr) (name : option string) (body : list stmt).

Definition is_name (e : expr) : bool :=
  match e with Name _ _ => true | _ => false end.

(** Scopes of [ScopeProvider]: the global scope's parent is the builtin
    scope, whose parent is itself; the scope of a [def] or a [lambda]
    ([FunctionScope]) and of a comprehension ([ComprehensionScope]) has as
    parent the scope the node is in. *)
Inductive scope :=
| BuiltinScope
| GlobalScope
| FunctionScope (id : nat) (parent : scope)
| ComprehensionScope (id : nat) (parent : scope).

Definition scope_parent (s : scope) : scope :=
  match s with
  | BuiltinScope => BuiltinScope
  | GlobalScope => BuiltinScope
  | FunctionScope _ p => p
  | ComprehensionScope _ p => p
  end.

Fixpoint scope_eqb (a b : scope) : bool :=
  match a, b with
  | BuiltinScope, BuiltinScope => true
  | GlobalScope, GlobalScope => true
  | FunctionScope i p, FunctionScope j q => Nat.eqb i j && scope_eqb p q
  | ComprehensionScope i p, ComprehensionScope j q => Nat.eqb i j && scope_eqb p q
  | _, _ => false
  end.

End Cst.
Import Cst.

(* ------------------------------------------------------------------ *)
(** ** State of a [ReplaceFuncWithLoggerCommand] run *)

Definition LOGLEVELS : list string :=
  ["DEBUG"; "INFO"; "WARNING"; "WARN"; "ERROR"; "CRITICAL"; "FATAL"].

Definition mem (x : string) (l : list string) : bool := existsb (String.eqb x) l.

(** The names [n] with [hasattr(builtins, n)] in CPython 3.11: the
    attributes of the [builtins] module and those its [module] type
    provides. *)
Definition BUILTIN_NAMES : list string :=
  ["ArithmeticError"; "AssertionError"; "AttributeError"; "BaseException";
   "BaseExceptionGroup"; "BlockingIOError"; "BrokenPipeError"; "BufferError";
   "BytesWarning"; "ChildProcessError"; "ConnectionAbortedError"; "ConnectionError";
   "ConnectionRefusedError"; "ConnectionResetError"; "DeprecationWarning"; "EOFError";
   "Ellipsis"; "EncodingWarning"; "EnvironmentError"; "Exception"; "ExceptionGroup";
   "False"; "FileExistsError"; "FileNotFoundError"; "FloatingPointError";
   "FutureWarning"; "GeneratorExit"; "IOError"; "ImportError"; "ImportWarning";
   "IndentationError"; "IndexError"; "InterruptedError"; "IsADirectoryError";
   "KeyError"; "KeyboardInterrupt"; "LookupError"; "MemoryError";
   "ModuleNotFoundError"; "NameError"; "None"; "NotADirectoryError";
   "NotImplemented"; "NotImplementedError"; "OSError"; "OverflowError";
   "PendingDeprecationWarning"; "PermissionError"; "ProcessLookupError";
   "RecursionError"; "ReferenceError"; "ResourceWarning"; "RuntimeError";
   "RuntimeWarning"; "StopAsyncIteration"; "StopIteration"; "SyntaxError";
   "SyntaxWarning"; "SystemError"; "SystemExit"; "TabError"; "TimeoutError"; "True";
   "TypeError"; "UnboundLocalError"; "UnicodeDecodeError"; "UnicodeEncodeError";
   "UnicodeError"; "UnicodeTranslateError"; "UnicodeWarning"; "UserWarning";
   "ValueError"; "Warning"; "ZeroDivisionError"; "__annotations__";
   "__build_class__"; "__class__"; "__debug__"; "__delattr__"; "__dict__"; "__dir__";
   "__doc__"; "__eq__"; "__format__"; "__ge__"; "__getattribute__"; "__getstate__";
   "__gt__"; "__hash__"; "__import__"; "__init__"; "__init_subclass__"; "__le__";
   "__loader__"; "__lt__"; "__name__"; "__ne__"; "__new__"; "__package__";
   "__reduce__"; "__reduce_ex__"; "__repr__"; "__setattr__"; "__sizeof__"; "__spec__";
   "__str__"; "__subclasshook__"; "abs"; "aiter"; "all"; "anext"; "any"; "ascii";
   "bin"; "bool"; "breakpoint"; "bytearray"; "bytes"; "callable"; "chr";
   "classmethod"; "compile"; "complex"; "copyright"; "credits"; "delattr"; "dict";
   "dir"; "divmod"; "enumerate"; "eval"; "exec"; "exit"; "filter"; "float"; "format";
   "frozenset"; "getattr"; "globals"; "hasattr"; "hash"; "help"; "hex"; "id"; "input";
   "int"; "isinstance"; "issubclass"; "iter"; "len"; "license"; "list"; "locals";
   "map"; "max"; "memoryview"; "min"; "next"; "object"; "oct"; "open"; "ord"; "pow";
   "print"; "property"; "quit"; "range"; "repr"; "reversed"; "round"; "set";
   "setattr"; "slice"; "sorted"; "staticmethod"; "str"; "sum"; "super"; "tuple";
   "type"; "vars"; "zip"].

(** [CSTString]: message components of an argument. *)
Record CSTString := mkCSTString {
  cs_name : option expr;
  cs_literal : option string;
  cs_format_args : list arg
}.

(** A recorded string assignment: [(node identity, source of its literal)];
    [None] is the marker of an assignment from a [.format] call. *)
Definition assign_ref := option (nat * string).

(** A [FunctionDef] on [_function_context]: enclosing scope, identity, name. *)
Definition fundef_ref := (scope * nat * string)%type.

(** Python lists used as stacks ([append], [pop], [[-1]]) are kept with
    their last element first.  Python sets are lists without duplicates.
    [needed_imports] and [global_statements] are the [context.scratch]
    entries of [AddImportsVisitor] and [AddGlobalStatements]. *)
Record state := mkState {
  logfuncs : list string;
  excs_in_logfunc_call : list nat;
  function_context : list fundef_ref;
  handled_exceptions : list string;
  string_varnames : list (string * list (scope * assign_ref));
  postprocess : list assign_ref;
  warnings : list string;
  needed_imports : list string;
  global_statements : list string
}.

(** The state right after [__init__], given the scratch set of names
    scheduled for replacement. *)
Definition init_state (names : list string) : state :=
  mkState names [] [] [] [] [] [] [] [].

Inductive exn :=
| LogFuncReplaceException (msg : string)
| TypeError (msg : string)
| ValueError (msg : string)
| AttributeError (msg : string)
| IndexError (msg : string)
| SyntaxError.

(** A computation ends with a value and a state, raises, is still
    running when the step budget of a [while] loop runs out, or reaches a
    value outside the model ([Unmodelled]: see [Py.literal_eval]). *)
Inductive outcome (A : Type) :=
| Ok (a : A) (s : state)
| Raised (e : exn)
| OutOfFuel
| Unmodelled.
Arguments Ok {A} a s.
Arguments Raised {A} e.
Arguments OutOfFuel {A}.
Arguments Unmodelled {A}.

Definition M (A : Type) := state -> outcome A.

Definition ret {A} (a : A) : M A := fun s => Ok a s.
Definition bind {A B} (m : M A) (k : A -> M B) : M B :=
  fun s => match m s with
           | Ok a s' => k a s'
           | Raised e => Raised e
           | OutOfFuel => OutOfFuel
           | Unmodelled => Unmodelled
           end.
Definition raise {A} (e : exn) : M A := fun _ => Raised e.
Definition get : M state := fun s => Ok s s.
Definition put (s : state) : M unit := fun _ => Ok tt s.

Notation "x <- m ;; k" := (bind m (fun x => k)) (at level 61, m at next level, right associativity).
Notation "m ;; k" := (bind m (fun _ => k)) (at level 61, right associativity).

Definition set_excs (l : list nat) (s : state) : state :=
  mkState (logfuncs s) l (function_context s) (handled_exceptions s) (string_varnames s)
          (postprocess s) (warnings s) (needed_imports s) (global_statements s).
Definition set_function_context (l : list fundef_ref) (s : state) : state :=
  mkState (logfuncs s) (excs_in_logfunc_call s) l (handled_exceptions s) (string_varnames s)
          (postprocess s) (warnings s) (needed_imports s) (global_statements s).
Definition set_handled (l : list string) (s : state) : state :=
  mkState (logfuncs s) (excs_in_logfunc_call s) (function_context s) l (string_varnames s)
          (postprocess s) (warnings s) (needed_imports s) (global_statements s).
Definition set_varnames (l : list (string * list (scope * assign_ref))) (s : state) : state :=
  mkState (logfuncs s) (excs_in_logfunc_call s) (function_context s) (handled_exceptions s) l
          (postprocess s) (warnings s) (needed_imports s) (global_statements s).
Definition set_postprocess (l : list assign_ref) (s : state) : state :=
  mkState (logfuncs s) (excs_in_logfunc_call s) (function_context s) (handled_exceptions s)
          (string_varnames s) l (warnings s) (needed_imports s) (global_statements s).
Definition set_warnings (l : list string) (s : state) : state :=
  mkState (logfuncs s) (excs_in_logfunc_call s) (function_context s) (handled_exceptions s)
          (string_varnames s) (postprocess s) l (needed_imports s) (global_statements s).
Definition set_needed_imports (l : list string) (s : state) : state :=
  mkState (logfuncs s) (excs_in_logfunc_call s) (function_context s) (handled_exceptions s)
          (string_varnames s) (postprocess s) (warnings s) l (global_statements s).
Definition set_global_statements (l : list string) (s : state) : state :=
  mkState (logfuncs s) (excs_in_logfunc_call s) (function_context s) (handled_exceptions s)
          (string_varnames s) (postprocess s) (warnings s) (needed_imports s) l.

Definition modify (f : state -> state) : M unit := fun s => Ok tt (f s).

(** A [for] loop building the list of transformed children, in order. *)
Definition mapM {A B} (g : A -> M B) : list A -> M (list B) :=
  fix go (l : list A) : M (list B) :=
    match l with
    | [] => ret []
    | x :: r => y <- g x ;; r' <- go r ;; ret (y :: r')
    end.

(** Python [set.add] and [set.discard] on a list without duplicates. *)
Definition set_add (x : string) (l : list string) : list string :=
  if mem x l then l else l ++ [x].
Definition set_discard (x : string) (l : list string) : list string :=
  filter (fun y => negb (String.eqb x y)) l.

(** [AddGlobalStatements.add_global_statement]: [statements.append(...)]. *)
Definition add_global_statement (st : string) : M unit :=
  modify (fun s => set_global_statements (global_statements s ++ [st]) s).

(** [AddImportsVisitor.add_needed_import(context, module)]: appends to the
    scratch list. *)
Definition add_needed_import (m : string) : M unit :=
  modify (fun s => set_needed_imports (needed_imports s ++ [m]) s).

(* ------------------------------------------------------------------ *)
(** ** [ReplaceFuncWithLoggerCommand] *)

Section Rewriter.

(** The [logger_name] argument of the constructor. *)
Variable logger_name : string.
(** [QualifiedNameProvider] on a [FunctionDef], in the order [.pop()]
    returns the names of its set. *)
Variable qualified_names : fundef_ref -> list string.
(** Step budget for the [while] loop of [ensure_assigned_format_is_percent];
    running out of it is [OutOfFuel]. *)
Variable fuel : nat.

Definition at_pos (p : pos) (msg : string) : string :=
  msg ++ " :: line " ++ Py.str_of_nat (fst p) ++ ", column " ++ Py.str_of_nat (snd p).

Definition warn_at_node (p : pos) (msg : string) : M unit :=
  modify (fun s => set_warnings (warnings s ++ [at_pos p msg]) s).

Definition raise_at_node {A} (p : pos) (msg : string) : M A :=
  raise (LogFuncReplaceException (at_pos p msg)).

(** Calling the bound method [raise_at_node] with one argument instead of
    two raises this [TypeError] before its body runs. *)
Definition raise_at_node_arity_error : exn :=
  TypeError "ReplaceFuncWithLoggerCommand.raise_at_node() missing 1 required positional argument: 'msg'".

(** [literal_eval(src)] inside the transformer. *)
Definition literal_eval_M (src : string) : M string :=
  match Py.literal_eval src with
  | Py.LStr v => ret v
  | Py.LOutside => fun _ => Unmodelled
  | Py.LSyntaxError => raise SyntaxError
  | Py.LNullBytes => raise (ValueError "source code string cannot contain null bytes")
  end.

Definition lookup_varnames (v : string) (s : state) : option (list (scope * assign_ref)) :=
  match find (fun kv => String.eqb (fst kv) v) (string_varnames s) with
  | Some (_, m) => Some m
  | None => None
  end.

Definition in_varnames (v : string) (s : state) : bool :=
  match lookup_varnames v s with Some _ => true | None => false end.

Definition in_map (sc : scope) (m : list (scope * assign_ref)) : bool :=
  existsb (fun kv => scope_eqb (fst kv) sc) m.

Definition map_get (sc : scope) (m : list (scope * assign_ref)) : assign_ref :=
  match find (fun kv => scope_eqb (fst kv) sc) m with
  | Some (_, a) => a
  | None => None
  end.

(** [self._string_varnames.setdefault(name, {})[scope] = value] *)
Fixpoint map_set (sc : scope) (a : assign_ref) (m : list (scope * assign_ref))
  : list (scope * assign_ref) :=
  match m with
  | [] => [(sc, a)]
  | (k, b) :: r => if scope_eqb k sc then (k, a) :: r else (k, b) :: map_set sc a r
  end.

Fixpoint varnames_set (v : string) (sc : scope) (a : assign_ref)
  (l : list (string * list (scope * assign_ref))) : list (string * list (scope * assign_ref)) :=
  match l with
  | [] => [(v, [(sc, a)])]
  | (k, m) :: r =>
      if String.eqb k v then (k, map_set sc a m) :: r else (k, m) :: varnames_set v sc a r
  end.

Definition assign_ref_eqb (a b : assign_ref) : bool :=
  match a, b with
  | None, None => true
  | Some (i, x), Some (j, y) => Nat.eqb i j && String.eqb x y
  | _, _ => false
  end.

(** [while scope not in map: parent = scope.parent; if scope is parent:
    raise ...] -- the body binds [parent] and never assigns [scope]. *)
Fixpoint scope_search (n : nat) (p : pos) (sc : scope) (m : list (scope * assign_ref))
  : M scope :=
  match n with
  | 0 => fun _ => OutOfFuel
  | S n' =>
      if in_map sc m then ret sc
      else
        let parent := scope_parent sc in
        if scope_eqb sc parent
        then raise_at_node p "Could not find scope of string variable definition"
        else scope_search n' p sc m
  end.

(** [ensure_assigned_format_is_percent(node)]; [sc] is the scope of
    [node].  The test [map is None] never holds: [map] is a [dict]. *)
Definition ensure_assigned_format_is_percent (sc : scope) (node : expr) : M unit :=
  match node with
  | Name p v =>
      s <- get ;;
      match lookup_varnames v s with
      | None => ret tt
      | Some m =>
          found <- scope_search fuel p sc m ;;
          let a := map_get found m in
          modify (fun s =>
            if existsb (assign_ref_eqb a) (postprocess s) then s
            else set_postprocess (postprocess s ++ [a]) s)
      end
  | _ => ret tt
  end.

(** [get_string_components(node)] *)
Definition get_string_components (node : expr) : M (option CSTString) :=
  match node with
  | SimpleString src =>
      v <- literal_eval_M src ;; ret (Some (mkCSTString None (Some v) []))
  | Call _ (Attribute caller attr) args =>
      if String.eqb attr "format" then
        match caller with
        | SimpleString src =>
            v <- literal_eval_M src ;; ret (Some (mkCSTString None (Some v) args))
        | Name _ v =>
            s <- get ;;
            if in_varnames v s then ret (Some (mkCSTString (Some caller) None args))
            else ret (Some (mkCSTString None None args))
        | _ => ret (Some (mkCSTString None None args))
        end
      else ret None
  | Name _ v =>
      s <- get ;;
      if in_varnames v s then ret (Some (mkCSTString (Some node) None [])) else ret None
  | _ => ret None
  end.

Definition literal_is_loglevel (c : CSTString) : bool :=
  match cs_literal c with Some l => mem l LOGLEVELS | None => false end.

Definition name_is_file (c : CSTString) : bool :=
  match cs_name c with Some (Name _ v) => String.eqb (Py.lower v) "file" | _ => false end.

(** The [for arg in node.args] loop of [get_logfunc_arguments], with its
    accumulators [loglevel], [msg] and [unrecognized]. *)
Fixpoint classify_args (p : pos) (args : list arg) (loglevel : option string)
  (msg : option CSTString) (unrecognized : nat)
  : M (option string * option CSTString * nat) :=
  match args with
  | [] => ret (loglevel, msg, unrecognized)
  | Arg _ _ v :: rest =>
      comps <- get_string_components v ;;
      match comps with
      | Some c =>
          if literal_is_loglevel c then
            match loglevel with
            | Some _ => raise raise_at_node_arity_error
            | None => classify_args p rest (cs_literal c) msg unrecognized
            end
          else if name_is_file c then
            warn_at_node p "File argument in logfunc call" ;;
            classify_args p rest loglevel msg unrecognized
          else
            match msg with
            | None => classify_args p rest loglevel (Some c) unrecognized
            | Some _ => classify_args p rest loglevel msg (S unrecognized)
            end
      | None =>
          s <- get ;;
          match v with
          | Name _ x =>
              if mem x (handled_exceptions s)
              then classify_args p rest loglevel msg unrecognized
              else classify_args p rest loglevel msg (S unrecognized)
          | _ => classify_args p rest loglevel msg (S unrecognized)
          end
      end
  end.

(** [get_logfunc_arguments(node)] for a call at position [p]. *)
Definition get_logfunc_arguments (p : pos) (args : list arg) : M (string * CSTString) :=
  r <- classify_args p args None None 0 ;;
  let '(loglevel, msg, unrecognized) := r in
  (if 0 <? unrecognized
   then warn_at_node p (Py.str_of_nat unrecognized
                        ++ " unrecognized argument(s) found in logfunc call")
   else ret tt) ;;
  match msg, loglevel with
  | Some m, Some l => ret (l, m)
  | _, _ => raise_at_node p "Malformed logfunc call"
  end.

Definition repr_literal (l : option string) : string :=
  match l with Some v => Py.repr v | None => "None" end.

(** The replacement built by the exception branch. *)
Definition exception_call (p : pos) (label : string) : expr :=
  Call p (Attribute (Name nopos logger_name) "exception")
    [Arg None NoStar (SimpleString (Py.dqs ++ "Error in function: " ++ label ++ Py.dqs));
     Arg (Some "exc_info") NoStar (Name nopos "True")].

(** The replacement built by the normal branch. *)
Definition logger_call (p : pos) (loglevel : string) (fmt : expr) (format_args : list arg) : expr :=
  Call p (Attribute (Name nopos "logger") (Py.lower loglevel)) (Arg None NoStar fmt :: format_args).

(** [exc_scope] of the exception branch. *)
Definition exc_scope (p : pos) : M string :=
  s <- get ;;
  match function_context s with
  | [] => ret "Module"
  | f :: _ =>
      match qualified_names f with
      | q :: _ => ret q
      | [] =>
          warn_at_node p "Unable to find qualified name for function context of exception (QualifiedNameProvider returned empty set)" ;;
          ret "UNKNOWN"
      end
  end.

(** [self._excs_in_logfunc_call.pop()] *)
Definition pop_excs : M nat :=
  s <- get ;;
  match excs_in_logfunc_call s with
  | [] => raise (IndexError "pop from empty list")
  | n :: r => put (set_excs r s) ;; ret n
  end.

(** The [if msg.format_args:] block of the normal branch. *)
Definition convert_message (p : pos) (sc : scope) (msg : CSTString) : M CSTString :=
  match cs_format_args msg with
  | [] => ret msg
  | fa =>
      match cs_name msg with
      | Some n => ensure_assigned_format_is_percent sc n ;; ret msg
      | None =>
          match cs_literal msg with
          | None => raise (AttributeError "'NoneType' object has no attribute 'replace'")
          | Some l =>
              let l' := Py.replace_braces l in
              match Py.percent_trial l' (length fa) with
              | None => ret (mkCSTString None (Some l') fa)
              | Some Py.FmtTypeError =>
                  raise_at_node p "Failed to convert str.format() call to %-style format string"
              | Some Py.FmtValueError => raise (ValueError "unsupported format")
              end
          end
      end
  end.

(** [change_logfunc_to_logger(original, updated)]; [sc] is the scope the
    call is in. *)
Definition change_logfunc_to_logger (sc : scope) (original updated : expr) : M expr :=
  match original, updated with
  | Call p (Name _ f) args, Call p' _ _ =>
      s <- get ;;
      if negb (mem f (logfuncs s)) then ret updated
      else
        r <- get_logfunc_arguments p args ;;
        let '(loglevel, msg) := r in
        n <- pop_excs ;;
        if 0 <? n then
          label <- exc_scope p ;;
          ret (exception_call p' label)
        else
          msg' <- convert_message p sc msg ;;
          let fmt := match cs_name msg' with
                     | Some nm => nm
                     | None => SimpleString (repr_literal (cs_literal msg'))
                     end in
          ret (logger_call p' loglevel fmt (cs_format_args msg'))
  | _, _ => ret updated
  end.

(** [enter_logfunc_context], visiting a [Call(func=Name())]. *)
Definition enter_logfunc_context (f : expr) : M unit :=
  match f with
  | Name _ v =>
      s <- get ;;
      if mem v (logfuncs s)
      then modify (fun s => set_excs (0 :: excs_in_logfunc_call s) s) ;;
           add_needed_import "logging"
      else ret tt
  | _ => ret tt
  end.

(** [set_exc_context], visiting an [Arg(value=Name())] inside a
    [Call(func=Name())]. *)
Definition set_exc_context (v : string) : M unit :=
  s <- get ;;
  if mem v (handled_exceptions s) then
    match excs_in_logfunc_call s with
    | n :: r => put (set_excs (S n :: r) s)
    | [] => ret tt
    end
  else ret tt.

(** [push_named_exception] and [pop_named_exception]. *)
Definition push_named_exception (name : string) : M unit :=
  modify (fun s => set_handled (set_add name (handled_exceptions s)) s).
Definition pop_named_exception (name : string) : M unit :=
  modify (fun s => set_handled (set_discard name (handled_exceptions s)) s).

(** [push_function_onto_context] and [pop_function_context]
    (Python's [list.pop] of a non-empty list here). *)
Definition push_function_onto_context (f : fundef_ref) : M unit :=
  modify (fun s => set_function_context (f :: function_context s) s).
Definition pop_function_context : M unit :=
  modify (fun s => set_function_context (tl (function_context s)) s).

(** The two [leave] hooks on [Assign]: [record_string_assignment] and
    [record_template_string_assignment]; both match a single target that
    is a [Name]. *)
Definition leave_assign (sc : scope) (original updated : stmt) : M stmt :=
  match original, updated with
  | Assign _ [Name _ t] (SimpleString _), Assign id _ (SimpleString src) =>
      modify (fun s => set_varnames (varnames_set t sc (Some (id, src)) (string_varnames s)) s) ;;
      ret updated
  | Assign _ [Name _ t] (Call _ (Attribute caller attr) _), _ =>
      s <- get ;;
      let ok := String.eqb attr "format" &&
                match caller with
                | SimpleString _ => true
                | Name _ v => in_varnames v s
                | _ => false
                end in
      (if ok
       then modify (fun s => set_varnames (varnames_set t sc None (string_varnames s)) s)
       else ret tt) ;;
      ret updated
  | _, _ => ret updated
  end.

(** One pass of the matcher-decorated transformer: each node is visited,
    its children are transformed in order, and the node is left.  [ins]
    tells whether an ancestor is a [Call(func=Name())] (the
    [call_if_inside] condition of [set_exc_context]); [sc] is the scope
    of the node. *)
Fixpoint tr_expr (ins : bool) (sc : scope) (e : expr) {struct e} : M expr :=
  match e with
  | Name _ _ => ret e
  | SimpleString _ => ret e
  | Attribute v a => v' <- tr_expr ins sc v ;; ret (Attribute v' a)
  | Call p f args =>
      let isn := is_name f in
      (if isn then enter_logfunc_context f else ret tt) ;;
      f' <- tr_expr (ins || isn) sc f ;;
      args' <- mapM (tr_arg (ins || isn) sc) args ;;
      let upd := Call p f' args' in
      if isn then change_logfunc_to_logger sc e upd else ret upd
  | Tuple es => es' <- mapM (tr_expr ins sc) es ;; ret (Tuple es')
  | Starred v => v' <- tr_expr ins sc v ;; ret (Starred v')
  | NamedExpr t v =>
      t' <- tr_expr ins sc t ;;
      v' <- tr_expr ins sc v ;;
      ret (NamedExpr t' v')
  | Lambda id ds b =>
      ds' <- mapM (tr_expr ins sc) ds ;;
      b' <- tr_expr ins (FunctionScope id sc) b ;;
      ret (Lambda id ds' b')
  | Comp id es t it rs =>
      let csc := ComprehensionScope id sc in
      es' <- mapM (tr_expr ins csc) es ;;
      t' <- tr_expr ins csc t ;;
      it' <- tr_expr ins sc it ;;
      rs' <- mapM (tr_expr ins csc) rs ;;
      ret (Comp id es' t' it' rs')
  | OtherExpr es =>
      es' <- mapM (tr_expr ins sc) es ;;
      ret (OtherExpr es')
  end
with tr_arg (ins : bool) (sc : scope) (a : arg) {struct a} : M arg :=
  match a with
  | Arg k st v =>
      (match v with
       | Name _ x => if ins then set_exc_context x else ret tt
       | _ => ret tt
       end) ;;
      v' <- tr_expr ins sc v ;;
      ret (Arg k st v')
  end.

Fixpoint tr_stmt (sc : scope) (s : stmt) {struct s} : M stmt :=
  match s with
  | Expr e => e' <- tr_expr false sc e ;; ret (Expr e')
  | Assign id ts v =>
      ts' <- mapM (tr_expr false sc) ts ;;
      v' <- tr_expr false sc v ;;
      leave_assign sc s (Assign id ts' v')
  | Import _ => ret s
  | Parsed _ => ret s
  | FunctionDef id name body =>
      push_function_onto_context (sc, id, name) ;;
      body' <- mapM (tr_stmt (FunctionScope id sc)) body ;;
      pop_function_context ;;
      ret (FunctionDef id name body')
  | Try body hs =>
      body' <- mapM (tr_stmt sc) body ;;
      hs' <- mapM (tr_handler sc) hs ;;
      ret (Try body' hs')
  end
with tr_handler (sc : scope) (h : handler) {struct h} : M handler :=
  match h with
  | ExceptHandler ty nm body =>
      (match nm with Some n => push_named_exception n | None => ret tt end) ;;
      ty' <- (match ty with
              | Some t => t' <- tr_expr false sc t ;; ret (Some t')
              | None => ret None
              end) ;;
      body' <- mapM (tr_stmt sc) body ;;
      (match nm with Some n => pop_named_exception n | None => ret tt end) ;;
      ret (ExceptHandler ty' nm body')
  end.

Definition tr_stmts (sc : scope) : list stmt -> M (list stmt) := mapM (tr_stmt sc).

(** The names an assignment target stores into: a name, and the names
    inside a tuple or list target and its starred elements (attributes
    and subscripts store into no name). *)
Fixpoint target_names (e : expr) : list string :=
  match e with
  | Name _ v => [v]
  | Tuple es => flat_map target_names es
  | Starred v => target_names v
  | _ => []
  end.

(** The names bound by the assignment expressions of an expression in the
    scope the expression is in: not those inside a [lambda] body or
    inside a comprehension (libcst records them in the comprehension's
    scope), but those in a [lambda]'s default values and in a
    comprehension's first iterable. *)
Fixpoint walrus_names (e : expr) : list string :=
  match e with
  | Name _ _ | SimpleString _ => []
  | Attribute v _ => walrus_names v
  | Call _ f args =>
      app (walrus_names f) (flat_map (fun a => match a with Arg _ _ v => walrus_names v end) args)
  | Tuple es | OtherExpr es => flat_map walrus_names es
  | Starred v => walrus_names v
  | NamedExpr t v => app (target_names t) (app (walrus_names t) (walrus_names v))
  | Lambda _ ds _ => flat_map walrus_names ds
  | Comp _ _ _ it _ => walrus_names it
  end.

(** Names bound in the module scope: assignment targets, assignment
    expressions, imported names, [def] names and handler names, outside
    function bodies. *)
Fixpoint stmt_bound_names (s : stmt) : list string :=
  match s with
  | Expr e => walrus_names e
  | Assign _ ts v =>
      app (flat_map (fun t => app (target_names t) (walrus_names t)) ts) (walrus_names v)
  | Import ns => ns
  | FunctionDef _ n _ => [n]
  | Try body hs =>
      app (flat_map stmt_bound_names body)
          (flat_map (fun h => match h with
                              | ExceptHandler ty nm b =>
                                  app (match nm with Some n => [n] | None => [] end)
                                      (app (match ty with Some t => walrus_names t | None => [] end)
                                           (flat_map stmt_bound_names b))
                              end) hs)
  | Parsed _ => []
  end.

Definition global_scope_names (m : list stmt) : list string :=
  flat_map stmt_bound_names m.

(** [name in global_scope]: [GlobalScope.__contains__] holds for a name
    with an assignment in the module scope and otherwise defers to the
    builtin scope, [hasattr(builtins, name)]. *)
Definition in_global_scope (n : string) (m : list stmt) : bool :=
  mem n (global_scope_names m) || mem n BUILTIN_NAMES.

(** [check_global_scope_for_logger], visiting the [Module]. *)
Definition check_global_scope_for_logger (m : list stmt) : M unit :=
  if in_global_scope logger_name m
  then raise (LogFuncReplaceException ("Module scope already contains the name " ++ logger_name))
  else add_global_statement (logger_name ++ " = logging.getLogger(__name__)").

(** [updated.deep_replace(node, convert_format(node))] for the
    assignment node of identity [id]. *)
Fixpoint replace_assign_value (id : nat) (src : string) (s : stmt) : stmt :=
  match s with
  | Assign id' ts v => if Nat.eqb id id' then Assign id' ts (SimpleString src) else s
  | FunctionDef i n body => FunctionDef i n (map (replace_assign_value id src) body)
  | Try body hs =>
      Try (map (replace_assign_value id src) body)
          (map (fun h => match h with
                         | ExceptHandler ty nm b =>
                             ExceptHandler ty nm (map (replace_assign_value id src) b)
                         end) hs)
  | _ => s
  end.

(** [postprocess_assignment_nodes], leaving the [Module]. *)
Fixpoint postprocess_nodes (pp : list assign_ref) (body : list stmt) : M (list stmt) :=
  match pp with
  | [] => ret body
  | None :: _ => raise (AttributeError "'NoneType' object has no attribute 'value'")
  | Some (id, src) :: r =>
      bracket_fmt <- literal_eval_M src ;;
      let percent_fmt := Py.repr (Py.replace_braces bracket_fmt) in
      postprocess_nodes r (map (replace_assign_value id percent_fmt) body)
  end.

Definition postprocess_assignment_nodes (body : list stmt) : M (list stmt) :=
  s <- get ;; postprocess_nodes (postprocess s) body.

(** [transform_module_impl]: one traversal of the module. *)
Definition transform_module (m : list stmt) : M (list stmt) :=
  check_global_scope_for_logger m ;;
  body' <- tr_stmts GlobalScope m ;;
  postprocess_assignment_nodes body'.

End Rewriter.

(* ------------------------------------------------------------------ *)
(** ** [AddGlobalStatements] *)

Module AddGlobalStatements.

(** [AddImportsVisitor._split_module] as used by
    [_split_module_with_empty_line]: the leading run of import statements,
    and the statements after it.  Blank-line handling
    ([_insert_empty_line], [_ensure_blank_first_line]) only changes
    [leading_lines] and is not modelled. *)
Fixpoint split_module (body : list stmt) : list stmt * list stmt :=
  match body with
  | (Import _ as s) :: r => let '(pre, post) := split_module r in (s :: pre, post)
  | _ => ([], body)
  end.

(** [__init__(context, statements)]: [self._statements]. *)
Definition init_statements (ctx_statements statements : list string) : list string :=
  app ctx_statements statements.

(** [leave_Module], on the statements of [self._statements]. *)
Definition leave_Module (statements : list string) (updated : list stmt) : list stmt :=
  match statements with
  | [] => updated
  | _ =>
      let '(prelude, postlude) := split_module updated in
      app prelude (app (map Parsed statements) postlude)
  end.

(** [_ensure_blank_first_line], on the [leading_lines] of the first
    inserted statement; an [EmptyLine] is given by its [comment], the only
    field the method reads. *)
Definition ensure_blank_first_line (leading_lines : list (option string)) : list (option string) :=
  match leading_lines with
  | [] => [None]
  | None :: _ => leading_lines
  | Some _ :: _ => None :: leading_lines
  end.

End AddGlobalStatements.

(* ------------------------------------------------------------------ *)
(** ** Vocabulary of the specification *)

Module Spec.

Definition vn_mem (v : string) (vn : list (string * list (scope * assign_ref))) : bool :=
  match find (fun kv => String.eqb (fst kv) v) vn with Some _ => true | None => false end.

(** [get_string_components] as a function of the string-variable registry;
    the outer [None] is a literal that [literal_eval] does not turn into a
    [str] of the model. *)
Definition string_components (vn : list (string * list (scope * assign_ref))) (node : expr)
  : option (option CSTString) :=
  match node with
  | SimpleString src =>
      option_map (fun v => Some (mkCSTString None (Some v) [])) (Py.lit_str (Py.literal_eval src))
  | Call _ (Attribute caller attr) args =>
      if String.eqb attr "format" then
        match caller with
        | SimpleString src =>
            option_map (fun v => Some (mkCSTString None (Some v) args)) (Py.lit_str (Py.literal_eval src))
        | Name _ v =>
            Some (Some (if vn_mem v vn then mkCSTString (Some caller) None args
                        else mkCSTString None None args))
        | _ => Some (Some (mkCSTString None None args))
        end
      else Some None
  | Name _ v => Some (if vn_mem v vn then Some (mkCSTString (Some node) None []) else None)
  | _ => Some None
  end.

Definition arg_value (a : arg) : expr := match a with Arg _ _ v => v end.

(** Every string literal the classifier evaluates is a [str] literal that
    [literal_eval] turns into a [str] of the model: any prefix among none,
    [u] and [r], one or three quotes, any escapes, but not a [bytes]
    literal, not a code point above 255, not a [\N{...}] escape and no
    [SyntaxError]. *)
Definition literals_ok vn (a : arg) : bool :=
  match string_components vn (arg_value a) with Some _ => true | None => false end.

(** An argument that is a recognized log-level literal. *)
Definition is_loglevel_arg vn (a : arg) : bool :=
  match string_components vn (arg_value a) with
  | Some (Some c) => literal_is_loglevel c
  | _ => false
  end.

(** An argument that is a message candidate: string components that are
    neither a log level nor a [file] name. *)
Definition is_msg_candidate vn (a : arg) : bool :=
  match string_components vn (arg_value a) with
  | Some (Some c) => negb (literal_is_loglevel c) && negb (name_is_file c)
  | _ => false
  end.

Definition count_loglevels vn (args : list arg) : nat :=
  length (filter (is_loglevel_arg vn) args).

(** The parts of the state a traversal of an expression leaves as they
    are. *)
Definition frame (s s' : state) : Prop :=
  logfuncs s' = logfuncs s /\ handled_exceptions s' = handled_exceptions s /\
  function_context s' = function_context s /\ string_varnames s' = string_varnames s.

(** The counter stack keeps its depth and tail, and its top can only grow. *)
Definition excs_grow (s s' : state) : Prop :=
  match excs_in_logfunc_call s with
  | [] => excs_in_logfunc_call s' = []
  | h :: t => exists h', h <= h' /\ excs_in_logfunc_call s' = h' :: t
  end.

(** The label of the exception branch for a function-context stack. *)
Definition label_of (qn : fundef_ref -> list string) (fc : list fundef_ref) : string :=
  match fc with
  | [] => "Module"
  | f :: _ => match qn f with q :: _ => q | [] => "UNKNOWN" end
  end.

(** Entry into and exit from an [except ... as name] handler. *)
Inductive handler_event := HEnter (n : string) | HLeave (n : string).

Definition handler_hook (ev : handler_event) : M unit :=
  match ev with
  | HEnter n => push_named_exception n
  | HLeave n => pop_named_exception n
  end.

Fixpoint run_hooks (evs : list handler_event) : M unit :=
  match evs with
  | [] => ret tt
  | ev :: r => handler_hook ev ;; run_hooks r
  end.

(** The names bound by the handlers open after a well-bracketed sequence
    of events, innermost first; [None] if a handler is left that is not the
    innermost open one. *)
Fixpoint open_handlers (evs : list handler_event) (stk : list string) : option (list string) :=
  match evs with
  | [] => Some stk
  | HEnter n :: r => open_handlers r (n :: stk)
  | HLeave n :: r =>
      match stk with
      | m :: stk' => if String.eqb n m then open_handlers r stk' else None
      | [] => None
      end
  end.

(** Number of [{}] pairs counted by [str.replace], and absence of [%]. *)
Fixpoint count_braces (s : string) : nat :=
  match s with
  | String "{" (String "}" r) => S (count_braces r)
  | String _ r => count_braces r
  | EmptyString => 0
  end.

Definition no_percent (s : string) : bool := negb (Py.ascii_in "%" s).

(** A step that changes only the diagnostics and scratch lists. *)
Definition quiet (s s' : state) : Prop :=
  frame s s' /\ excs_in_logfunc_call s' = excs_in_logfunc_call s.

(** A step that keeps the frame and can only raise the top counter. *)
Definition fg (s s' : state) : Prop := frame s s' /\ excs_grow s s'.

Definition expr_fg ln qn fuel (e : expr) : Prop :=
  forall ins sc s e' s', tr_expr ln qn fuel ins sc e s = Ok e' s' -> fg s s'.
Definition arg_fg ln qn fuel (a : arg) : Prop :=
  forall ins sc s a' s', tr_arg ln qn fuel ins sc a s = Ok a' s' -> fg s s'.

(** The top counter has strictly grown, tail unchanged. *)
Definition excs_gt (s s' : state) : Prop :=
  exists h t h', excs_in_logfunc_call s = h :: t /\ excs_in_logfunc_call s' = h' :: t /\ h < h'.

(** An argument that is a bare name bound by a handler. *)
Definition direct_handled (hs : list string) (a : arg) : bool :=
  match a with Arg _ _ (Name _ x) => mem x hs | _ => false end.

(** [f(<src>.format(<fa>), <lsrc>)]: a call with an inline template and a
    level literal. *)
Definition template_call (p q : pos) (f : string) (k : option string) (st : star)
  (p2 : pos) (src : string) (fa : list arg) (k' : option string) (st' : star) (lsrc : string) : expr :=
  Call p (Name q f) [Arg k st (Call p2 (Attribute (SimpleString src) "format") fa);
                     Arg k' st' (SimpleString lsrc)].

End Spec.
Import Spec.

(* ------------------------------------------------------------------ *)
(** ** Vocabulary of the further properties of the rewriter *)

Module Extra.

(** No call in the expression has a [Name] callee among [lf]. *)
Fixpoint expr_no_log (lf : list string) (e : expr) : bool :=
  match e with
  | Name _ _ => true
  | SimpleString _ => true
  | Attribute v _ => expr_no_log lf v
  | Call _ f args =>
      match f with Name _ v => negb (mem v lf) | _ => true end &&
      expr_no_log lf f && forallb (arg_no_log lf) args
  | Tuple es | OtherExpr es => forallb (expr_no_log lf) es
  | Starred v => expr_no_log lf v
  | NamedExpr t v => expr_no_log lf t && expr_no_log lf v
  | Lambda _ ds b => forallb (expr_no_log lf) ds && expr_no_log lf b
  | Comp _ es t it rs =>
      forallb (expr_no_log lf) es && expr_no_log lf t && expr_no_log lf it &&
      forallb (expr_no_log lf) rs
  end
with arg_no_log (lf : list string) (a : arg) : bool :=
  match a with Arg _ _ v => expr_no_log lf v end.

Fixpoint stmt_no_log (lf : list string) (s : stmt) : bool :=
  match s with
  | Expr e => expr_no_log lf e
  | Assign _ ts v => forallb (expr_no_log lf) ts && expr_no_log lf v
  | Import _ => true
  | Parsed _ => true
  | FunctionDef _ _ body => forallb (stmt_no_log lf) body
  | Try body hs => forallb (stmt_no_log lf) body && forallb (handler_no_log lf) hs
  end
with handler_no_log (lf : list string) (h : handler) : bool :=
  match h with
  | ExceptHandler ty _ body =>
      match ty with Some t => expr_no_log lf t | None => true end &&
      forallb (stmt_no_log lf) body
  end.

(** A module that assigns a string to [v] with the assignment [a], then
    logs [v.format(<fa>)] at the level literal [lsrc]:
    [v = <a>] followed by [f(v.format(<fa>), <lsrc>)]. *)
Definition template_var_module (id : nat) (q : pos) (v : string) (a : expr)
  (p q' : pos) (f : string) (k : option string) (st : star) (p2 q2 : pos)
  (fa : list arg) (k' : option string) (st' : star) (lsrc : string) : list stmt :=
  [Assign id [Name q v] a;
   Expr (Call p (Name q' f) [Arg k st (Call p2 (Attribute (Name q2 v) "format") fa);
                             Arg k' st' (SimpleString lsrc)])].

(** The arguments of a call whose string components make a message, in
    order, and the first of them; the first log-level literal. *)
Fixpoint first_candidate vn (args : list arg) : option CSTString :=
  match args with
  | [] => None
  | a :: r =>
      match string_components vn (arg_value a) with
      | Some (Some c) =>
          if negb (literal_is_loglevel c) && negb (name_is_file c) then Some c
          else first_candidate vn r
      | _ => first_candidate vn r
      end
  end.

Fixpoint first_level vn (args : list arg) : option string :=
  match args with
  | [] => None
  | a :: r =>
      match string_components vn (arg_value a) with
      | Some (Some c) => if literal_is_loglevel c then cs_literal c else first_level vn r
      | _ => first_level vn r
      end
  end.

(** The parts of the state a traversal of statements without log calls
    leaves as they are. *)
Definition calm (s s' : state) : Prop :=
  logfuncs s' = logfuncs s /\ excs_in_logfunc_call s' = excs_in_logfunc_call s /\
  function_context s' = function_context s /\ postprocess s' = postprocess s /\
  warnings s' = warnings s /\ needed_imports s' = needed_imports s /\
  global_statements s' = global_statements s.

(** The body scanner's result with the characters of [s] put in front
    of the body, as [scan_single] builds it. *)
Fixpoint scons_s (s : string) (o : option (string * string)) : option (string * string) :=
  match s with EmptyString => o | String c r => Py.scons c (scons_s r o) end.

End Extra.
Import Extra.

(* ------------------------------------------------------------------ *)
(** ** [RemoveLogfuncDefAndImports] *)

Module RemoveLogfunc.

(** An [ImportAlias]: its dotted name as components, its [as] name, and
    whether it carries an explicit comma ([false] is
    [MaybeSentinel.DEFAULT]). *)
Record ImportAlias := mkImportAlias {
  ia_name : list string;
  ia_asname : option string;
  ia_comma : bool
}.

(** The [names] of an [Import] or [ImportFrom]. *)
Inductive import_names := ImportStar | Aliases (l : list ImportAlias).

(** Statements as this codemod sees them: an import statement, a [def]
    with its body, another compound statement with its body, and any
    other statement. *)
Inductive rstmt :=
| RImport (names : import_names)
| RDef (name : string) (body : list rstmt)
| RCompound (body : list rstmt)
| ROther.

(** Members of [context.scratch["ReplaceFuncWithLoggerCommand"]]: a [str],
    or a CST node: an [AsName] node, or the [value] of the [Attribute] of a
    dotted name (the name without its last component). *)
Inductive item := IStr (s : string) | IAsName (alias : string) | IPrefix (components : list string).

Fixpoint components_eqb (a b : list string) : bool :=
  match a, b with
  | [], [] => true
  | x :: a', y :: b' => String.eqb x y && components_eqb a' b'
  | _, _ => false
  end.

Definition item_eqb (x y : item) : bool :=
  match x, y with
  | IStr a, IStr b => String.eqb a b
  | IAsName a, IAsName b => String.eqb a b
  | IPrefix a, IPrefix b => components_eqb a b
  | _, _ => false
  end.

(** [ReplaceFuncWithLoggerCommand.replace_logfunc(context, name)]:
    [setdefault(..., set()).add(name)]. *)
Definition replace_logfunc (x : item) (scratch : list item) : list item :=
  if existsb (item_eqb x) scratch then scratch else app scratch [x].

(** The [str] members of the scratch set: the names
    [ReplaceFuncWithLoggerCommand] tests calls against. *)
Fixpoint string_items (scratch : list item) : list string :=
  match scratch with
  | [] => []
  | IStr s :: r => s :: string_items r
  | _ :: r => string_items r
  end.

(** [node.evaluated_name.split(".")[-1]] *)
Definition last_component (a : ImportAlias) : string := last (ia_name a) EmptyString.

(** [node.name.value]: the [str] of a [Name], the [value] node of an
    [Attribute]. *)
Definition name_value (a : ImportAlias) : item :=
  match ia_name a with
  | [c] => IStr c
  | cs => IPrefix (removelast cs)
  end.

Definition alias_eqb (a b : ImportAlias) : bool :=
  components_eqb (ia_name a) (ia_name b) &&
  match ia_asname a, ia_asname b with
  | Some x, Some y => String.eqb x y
  | None, None => true
  | _, _ => false
  end && Bool.eqb (ia_comma a) (ia_comma b).

Section Codemod.

(** The [logfunc] argument of the constructor. *)
Variable logfunc : string.

(** The [for node in names] loop of [_filter_import_aliases]. *)
Fixpoint filter_loop (names : list ImportAlias) (keep discard : list ImportAlias)
  (scratch : list item) : list ImportAlias * list ImportAlias * list item :=
  match names with
  | [] => (keep, discard, scratch)
  | node :: r =>
      if negb (String.eqb (last_component node) logfunc)
      then filter_loop r (app keep [node]) discard scratch
      else
        match ia_asname node with
        | Some al => filter_loop r keep (app discard [node]) (replace_logfunc (IAsName al) scratch)
        | None => filter_loop r keep (app discard [node]) (replace_logfunc (name_value node) scratch)
        end
  end.

(** [_filter_import_aliases(names)].  The test [keep[-1] != names[-1]]
    compares nodes; [keep[-1]] is one of the [names], and a kept alias
    differs from a discarded one in its last component, so comparing the
    fields agrees with comparing identities. *)
Definition filter_import_aliases (names : list ImportAlias) (scratch : list item)
  : list ImportAlias * list ImportAlias * list item :=
  let '(keep, discard, scratch') := filter_loop names [] [] scratch in
  let dflt := mkImportAlias [] None false in
  let keep' :=
    match keep with
    | [] => keep
    | _ =>
        if negb (alias_eqb (last keep dflt) (last names dflt))
        then app (removelast keep)
                 [mkImportAlias (ia_name (last keep dflt)) (ia_asname (last keep dflt)) false]
        else keep
    end in
  (keep', discard, scratch').

(** [_remove_references(node)] for an [ImportAlias]: the [name] it
    computes is not used; [node.name.value] is scheduled. *)
Definition remove_alias_references (node : ImportAlias) (scratch : list item) : list item :=
  replace_logfunc (name_value node) scratch.

(** [leave_import_statement(original, updated)]; [None] is
    [cst.RemoveFromParent()]. *)
Definition leave_import_statement (names : import_names) (scratch : list item)
  : option rstmt * list item :=
  match names with
  | ImportStar => (Some (RImport names), scratch)
  | Aliases l =>
      let '(keep, discard, scratch1) := filter_import_aliases l scratch in
      let scratch2 := fold_left (fun sc n => remove_alias_references n sc) discard scratch1 in
      match keep with
      | [] => (None, scratch2)
      | _ => (Some (RImport (Aliases keep)), scratch2)
      end
  end.

(** [remove_logfunc(original, updated)], leaving a [FunctionDef]; the
    [_remove_references] call schedules [node.name.value]. *)
Definition remove_logfunc (name : string) (updated : rstmt) (scratch : list item)
  : option rstmt * list item :=
  if String.eqb name logfunc then (None, replace_logfunc (IStr name) scratch)
  else (Some updated, scratch).

(** The traversal: children are left before their parent, and a child
    whose hook returns [RemoveFromParent] is dropped from its body. *)
Fixpoint rl_stmt (s : rstmt) (scratch : list item) {struct s} : option rstmt * list item :=
  match s with
  | RImport ns => leave_import_statement ns scratch
  | RDef n body =>
      let '(body', scratch') :=
        (fix go (l : list rstmt) (sc : list item) : list rstmt * list item :=
           match l with
           | [] => ([], sc)
           | x :: r =>
               let '(o, sc1) := rl_stmt x sc in
               let '(r', sc2) := go r sc1 in
               (match o with Some y => y :: r' | None => r' end, sc2)
           end) body scratch in
      remove_logfunc n (RDef n body') scratch'
  | RCompound body =>
      let '(body', scratch') :=
        (fix go (l : list rstmt) (sc : list item) : list rstmt * list item :=
           match l with
           | [] => ([], sc)
           | x :: r =>
               let '(o, sc1) := rl_stmt x sc in
               let '(r', sc2) := go r sc1 in
               (match o with Some y => y :: r' | None => r' end, sc2)
           end) body scratch in
      (Some (RCompound body'), scratch')
  | ROther => (Some ROther, scratch)
  end.

Fixpoint rl_body (l : list rstmt) (sc : list item) : list rstmt * list item :=
  match l with
  | [] => ([], sc)
  | x :: r =>
      let '(o, sc1) := rl_stmt x sc in
      let '(r', sc2) := rl_body r sc1 in
      (match o with Some y => y :: r' | None => r' end, sc2)
  end.

End Codemod.

(** No [def] of [lf] and no alias whose last component is [lf], at any
    depth. *)
Fixpoint no_logfunc (lf : string) (s : rstmt) : bool :=
  match s with
  | RImport ImportStar => true
  | RImport (Aliases l) => forallb (fun a => negb (String.eqb (last_component a) lf)) l
  | RDef n body => negb (String.eqb n lf) && forallb (no_logfunc lf) body
  | RCompound body => forallb (no_logfunc lf) body
  | ROther => true
  end.

(** An alias [_filter_import_aliases] keeps: its name does not end in
    [lf]. *)
Definition kept_alias (lf : string) (a : ImportAlias) : bool := negb (String.eqb (last_component a) lf).

(** Every [str] in [sc'] is in [sc] or is [lf]. *)
Definition sched_ok (lf : string) (sc sc' : list item) : Prop :=
  forall x, In (IStr x) sc' -> In (IStr x) sc \/ x = lf.

(** [alias.with_changes(comma=cst.MaybeSentinel.DEFAULT)] *)
Definition no_comma (a : ImportAlias) : ImportAlias := mkImportAlias (ia_name a) (ia_asname a) false.

Definition dflt_alias : ImportAlias := mkImportAlias [] None false.

(** A statement whose rewriting leaves no [def] or alias of [lf] and
    schedules no [str] but [lf]. *)
Definition rl_ok (lf : string) (s : rstmt) : Prop :=
  forall sc, (forall y, fst (rl_stmt lf s sc) = Some y -> no_logfunc lf y = true) /\
             sched_ok lf sc (snd (rl_stmt lf s sc)).

End RemoveLogfunc.


(* ------------------------------------------------------------------ *)
(** ** Sample modules (the repository's test inputs, among others) *)

Module Samples.

Definition dstr (s : string) : expr := SimpleString (Py.dqs ++ s ++ Py.dqs).
Definition parg (e : expr) : arg := Arg None NoStar e.
Definition fmt_call (p : pos) (tmpl : string) (args : list expr) : expr :=
  Call p (Attribute (dstr tmpl) "format") (map parg args).
Definition eprint_call (p : pos) (args : list expr) : expr :=
  Call p (Name p "eprint") (map parg args).
Definition raise_stmt : stmt := Expr (OtherExpr [Call (0, 0) (Name (0, 0) "ValueError") [parg (dstr "oops")]]).

(** The qualified name of a [def] outside any class or function is its name. *)
Definition top_level_qualnames (f : fundef_ref) : list string :=
  let '(_, _, n) := f in [n].

Definition run (m : list stmt) : outcome (list stmt) :=
  transform_module "logger" top_level_qualnames 100 m (init_state ["eprint"]).

Definition out_module (o : outcome (list stmt)) : option (list stmt) :=
  match o with Ok m _ => Some m | _ => None end.

Definition out_state (o : outcome (list stmt)) : option state :=
  match o with Ok _ s => Some s | _ => None end.

(** [test_INFO] *)
Definition info_before : list stmt :=
  [Import ["qux"];
   Expr (eprint_call (2, 0) [fmt_call (2, 7) "{} is {} is {}" [dstr "foo"; Name (2, 37) "bar"; Name (2, 42) "qux"];
                             dstr "INFO"])].
Definition info_after : list stmt :=
  [Import ["qux"];
   Expr (Call (2, 0) (Attribute (Name nopos "logger") "info")
           (map parg [SimpleString "'%s is %s is %s'"; dstr "foo"; Name (2, 37) "bar"; Name (2, 42) "qux"]))].

(** [test_exception_at_module_scope] *)
Definition exc_module_before : list stmt :=
  [Import ["qux"];
   Try [raise_stmt]
       [ExceptHandler (Some (Name (4, 7) "ValueError")) (Some "e")
          [Expr (eprint_call (5, 4) [fmt_call (5, 11) "Exception: {}" [Name (5, 37) "e"];
                                     Name (5, 41) "__file__"; dstr "INFO"])]]].
Definition exc_module_after : list stmt :=
  [Import ["qux"];
   Try [raise_stmt]
       [ExceptHandler (Some (Name (4, 7) "ValueError")) (Some "e")
          [Expr (exception_call "logger" (5, 4) "Module")]]].

(** [test_exception_function_scope_nested_exceptions] *)
Definition exc_nested_before : list stmt :=
  [Import ["qux"];
   FunctionDef 1 "foo"
     [Try [Expr (OtherExpr []);
           Try [raise_stmt]
               [ExceptHandler (Some (Name (7, 15) "ValueError")) (Some "e")
                  [Expr (eprint_call (8, 12) [fmt_call (8, 19) "Exception: {}" [Name (8, 45) "e"];
                                              Name (8, 49) "__file__"; dstr "INFO"])]]]
          [ExceptHandler (Some (Name (9, 11) "Exception")) None
             [Expr (eprint_call (10, 8) [dstr "outer exception"; dstr "ERROR"])]]]].
Definition exc_nested_after : list stmt :=
  [Import ["qux"];
   FunctionDef 1 "foo"
     [Try [Expr (OtherExpr []);
           Try [raise_stmt]
               [ExceptHandler (Some (Name (7, 15) "ValueError")) (Some "e")
                  [Expr (exception_call "logger" (8, 12) "foo")]]]
          [ExceptHandler (Some (Name (9, 11) "Exception")) None
             [Expr (Call (10, 8) (Attribute (Name nopos "logger") "error")
                      [parg (SimpleString "'outer exception'")])]]]].

(** [except ValueError as e:] around [body], after a [try] that raises. *)
Definition handler (p : pos) (body : list stmt) : stmt :=
  Try [raise_stmt] [ExceptHandler (Some (Name p "ValueError")) (Some "e") body].

Definition logger_info (p : pos) (args : list expr) : expr :=
  Call p (Attribute (Name nopos "logger") "info") (map parg args).

(** [eprint("x is {} is {}".format(a, b), "INFO")] *)
Definition template_module : list stmt :=
  [Expr (eprint_call (1, 0) [fmt_call (1, 7) "x is {} is {}" [Name (1, 30) "a"; Name (1, 33) "b"];
                             dstr "INFO"])].
Definition template_module_out : list stmt :=
  [Expr (logger_info (1, 0) [SimpleString "'x is %s is %s'"; Name (1, 30) "a"; Name (1, 33) "b"])].

(** [eprint("x is {} is {}".format(a), "INFO")] *)
Definition short_template_module : list stmt :=
  [Expr (eprint_call (1, 0) [fmt_call (1, 7) "x is {} is {}" [Name (1, 30) "a"]; dstr "INFO"])].

(** [except ValueError as e: eprint(e, "ERROR")] *)
Definition exc_no_message_module : list stmt :=
  [handler (2, 7) [Expr (eprint_call (3, 4) [Name (3, 11) "e"; dstr "ERROR"])]].

(** [eprint("{{x}} = {}".format(v), "INFO")] and
    [eprint("{0} took %s".format(a), "INFO")] *)
Definition escaped_brace_module : list stmt :=
  [Expr (eprint_call (1, 0) [fmt_call (1, 7) "{{x}} = {}" [Name (1, 27) "v"]; dstr "INFO"])].
Definition escaped_brace_module_out : list stmt :=
  [Expr (logger_info (1, 0) [SimpleString "'{{x}} = %s'"; Name (1, 27) "v"])].
Definition indexed_field_module : list stmt :=
  [Expr (eprint_call (1, 0) [fmt_call (1, 7) "{0} took %s" [Name (1, 28) "a"]; dstr "INFO"])].
Definition indexed_field_module_out : list stmt :=
  [Expr (logger_info (1, 0) [SimpleString "'{0} took %s'"; Name (1, 28) "a"])].

(** Output of a previous run: [import logging],
    [logger = logging.getLogger(__name__)], [logger.info('done')]. *)
Definition converted_module : list stmt :=
  [Import ["logging"];
   Assign 1 [Name (2, 0) "logger"]
     (Call (2, 9) (Attribute (Name (2, 9) "logging") "getLogger") [parg (Name (2, 27) "__name__")]);
   Expr (Call (3, 0) (Attribute (Name (3, 0) "logger") "info") [parg (SimpleString "'done'")])].

(** [eprint("a", "INFO", "ERROR")] *)
Definition two_levels_module : list stmt :=
  [Expr (eprint_call (1, 0) [dstr "a"; dstr "INFO"; dstr "ERROR"])].

(** [except ValueError as e: eprint(e, "INFO", "ERROR")] *)
Definition exc_two_levels_module : list stmt :=
  [handler (2, 7) [Expr (eprint_call (3, 4) [Name (3, 11) "e"; dstr "INFO"; dstr "ERROR"])]].

(** Two nested handlers binding [e]; the log call follows the inner one. *)
Definition nested_same_name_events : list handler_event := [HEnter "e"; HEnter "e"; HLeave "e"].
Definition nested_same_name_module : list stmt :=
  [handler (1, 7)
     [handler (3, 11) [Expr (OtherExpr [])];
      Expr (eprint_call (5, 4) [fmt_call (5, 11) "Exception: {}" [Name (5, 37) "e"]; dstr "ERROR"])]].
Definition nested_same_name_module_out : list stmt :=
  [handler (1, 7)
     [handler (3, 11) [Expr (OtherExpr [])];
      Expr (Call (5, 4) (Attribute (Name nopos "logger") "error")
              (map parg [SimpleString "'Exception: %s'"; Name (5, 37) "e"]))]].

(** [msg = "{} is {}"] at module scope, used in a function:
    [def f(): eprint(msg.format(a, b), "INFO")]. *)
Definition global_template_module : list stmt :=
  [Assign 1 [Name (1, 0) "msg"] (dstr "{} is {}");
   FunctionDef 2 "f"
     [Expr (eprint_call (3, 4) [Call (3, 11) (Attribute (Name (3, 11) "msg") "format")
                                  [parg (Name (3, 22) "a"); parg (Name (3, 25) "b")];
                                dstr "INFO"])]].

(** A state registering [eprint], with the given handled names and counters. *)
Definition witness_state (handled : list string) (excs : list nat) : state :=
  set_handled handled (set_excs excs (init_state ["eprint"])).

End Samples.
Import Samples.

(* ------------------------------------------------------------------ *)
(** ** Checks of the model on small inputs *)

Example repr_ex1 : Py.repr "x is %s is %s" = "'x is %s is %s'".
Proof. reflexivity. Qed.
Example repr_ex2 : Py.repr "it's" = Py.dqs ++ "it's" ++ Py.dqs.
Proof. reflexivity. Qed.
Example eval_ex1 : Py.literal_eval (Py.dqs ++ "x is {} is {}" ++ Py.dqs) = Py.LStr "x is {} is {}".
Proof. reflexivity. Qed.
Example eval_ex2 : Py.literal_eval "'''a'''" = Py.LStr "a".
Proof. reflexivity. Qed.
Example eval_ex3 : Py.literal_eval "''" = Py.LStr EmptyString.
Proof. reflexivity. Qed.
Example eval_ex4 : Py.literal_eval "'\x7b\x7d \101B\q'" = Py.LStr "{} AB\q".
Proof. reflexivity. Qed.
Example eval_ex5 : Py.literal_eval "R'\x7b'" = Py.LStr "\x7b".
Proof. reflexivity. Qed.
Example eval_ex6 : Py.literal_eval "b'x'" = Py.LOutside.
Proof. reflexivity. Qed.
Example eval_ex7 : Py.literal_eval "'\x7'" = Py.LSyntaxError.
Proof. reflexivity. Qed.
Example eval_ex8 : Py.literal_eval "'\u20ac'" = Py.LOutside.
Proof. reflexivity. Qed.
Example eval_ex9 : Py.literal_eval "ur'a'" = Py.LSyntaxError.
Proof. reflexivity. Qed.
Example pct_ex1 : Py.percent_trial "%s is %s" 2 = None.
Proof. reflexivity. Qed.
Example pct_ex2 : Py.percent_trial "%s is %s" 1 = Some Py.FmtTypeError.
Proof. reflexivity. Qed.
Example pct_ex3 : Py.percent_trial "100%" 0 = Some Py.FmtValueError.
Proof. reflexivity. Qed.
Example pct_ex4 : Py.percent_trial "%-5.2ls %%" 1 = None.
Proof. reflexivity. Qed.
Example pct_ex5 : Py.percent_trial "{0}" 1 = Some Py.FmtTypeError.
Proof. reflexivity. Qed.
Example pct_ex6 : Py.percent_trial "%5%" 0 = Some Py.FmtTypeError.
Proof. reflexivity. Qed.
Example pct_ex7 : Py.percent_trial "%5%" 1 = Some Py.FmtValueError.
Proof. reflexivity. Qed.

(** Names found in the global scope: tuple and starred targets and a
    module-level assignment expression bind; an attribute target and an
    assignment expression inside a lambda body do not; a builtin name is
    found in an empty module. *)
Example scope_ex1 :
  in_global_scope "logger"
    [Assign 0 [Tuple [Name (1, 1) "a"; Starred (Name (1, 5) "logger")]] (Name (1, 16) "x")] = true.
Proof. vm_compute. reflexivity. Qed.
Example scope_ex2 :
  in_global_scope "logger" [Expr (NamedExpr (Name (1, 1) "logger") (dstr "a"))] = true.
Proof. vm_compute. reflexivity. Qed.
Example scope_ex3 :
  in_global_scope "logger"
    [Assign 0 [Attribute (Name (1, 0) "a") "logger"] (Name (1, 11) "x");
     Expr (Lambda 1 [] (NamedExpr (Name (2, 8) "logger") (dstr "a")))] = false.
Proof. vm_compute. reflexivity. Qed.
Example scope_ex4 : in_global_scope "print" [] = true.
Proof. vm_compute. reflexivity. Qed.

(** A template written with escapes is decoded before the conversion:
    ['\x7b\x7d'.format(a)] is the template [{}]. *)
Example escaped_template_model :
  out_module (run [Expr (eprint_call (1, 0)
                     [Call (1, 7) (Attribute (SimpleString "'\x7b\x7d'") "format") [parg (Name (1, 26) "a")];
                      dstr "INFO"])]) =
  Some [Expr (Call (1, 0) (Attribute (Name nopos "logger") "info")
                (map parg [SimpleString "'%s'"; Name (1, 26) "a"]))].
Proof. vm_compute. reflexivity. Qed.


Example test_INFO_model : out_module (run info_before) = Some info_after.
Proof. vm_compute. reflexivity. Qed.
Example test_exception_at_module_scope_model :
  out_module (run exc_module_before) = Some exc_module_after.
Proof. vm_compute. reflexivity. Qed.
Example test_exception_nested_model :
  out_module (run exc_nested_before) = Some exc_nested_after.
Proof. vm_compute. reflexivity. Qed.

(* ------------------------------------------------------------------ *)
(** ** Lemmas on the monad and on the hooks *)

Lemma bind_inv {A B} (m : M A) (k : A -> M B) s b s'' :
  bind m k s = Ok b s'' -> exists a s', m s = Ok a s' /\ k a s' = Ok b s''.
Proof. unfold bind. destruct (m s) as [a s'| | |]; intro H; try discriminate. eauto. Qed.

Ltac inv_bind H :=
  let a := fresh "a" in let s := fresh "s" in let E := fresh "E" in
  apply bind_inv in H; destruct H as (a & s & E & H).

Lemma bind_Ok {A B} (m : M A) (k : A -> M B) s a s' :
  m s = Ok a s' -> bind m k s = k a s'.
Proof. unfold bind. intros ->. reflexivity. Qed.

Lemma bind_Raised {A B} (m : M A) (k : A -> M B) s e :
  m s = Raised e -> bind m k s = Raised e.
Proof. unfold bind. intros ->. reflexivity. Qed.

Lemma bind_OutOfFuel {A B} (m : M A) (k : A -> M B) s :
  m s = OutOfFuel -> bind m k s = OutOfFuel.
Proof. unfold bind. intros ->. reflexivity. Qed.

Lemma in_varnames_vn v s : in_varnames v s = vn_mem v (string_varnames s).
Proof. unfold in_varnames, lookup_varnames, vn_mem. destruct (find _ _) as [[]|]; reflexivity. Qed.

Lemma gsc_ok v s c :
  string_components (string_varnames s) v = Some c -> get_string_components v s = Ok c s.
Proof.
  destruct v as [p v|src|v a|p f args| | | | | |es]; simpl; try (intro H; injection H as <-; reflexivity).
  - unfold bind, get, ret. rewrite in_varnames_vn. destruct (vn_mem v _); intro H; injection H as <-; reflexivity.
  - unfold bind, literal_eval_M, ret. destruct (Py.literal_eval src); simpl; try discriminate.
    intro H; injection H as <-; reflexivity.
  - destruct f as [| |caller attr| | | | | | |]; try (intro H; injection H as <-; reflexivity).
    destruct (String.eqb attr "format"); try (intro H; injection H as <-; reflexivity).
    destruct caller as [p' v|src| | | | | | | |]; try (intro H; injection H as <-; reflexivity).
    + unfold bind, get, ret. rewrite in_varnames_vn. destruct (vn_mem v _); intro H; injection H as <-; reflexivity.
    + unfold bind, literal_eval_M, ret. destruct (Py.literal_eval src); simpl; try discriminate.
      intro H; injection H as <-; reflexivity.
Qed.

Lemma gsc_inv v s c s' :
  get_string_components v s = Ok c s' -> string_components (string_varnames s) v = Some c /\ s' = s.
Proof.
  destruct v as [p v|src|v a|p f args| | | | | |es]; simpl; try (intro H; injection H as <- <-; auto).
  - unfold bind, get, ret. rewrite in_varnames_vn. destruct (vn_mem v _); intro H; injection H as <- <-; auto.
  - unfold bind, literal_eval_M, ret, raise. destruct (Py.literal_eval src); simpl; try discriminate.
    intro H; injection H as <- <-; auto.
  - destruct f as [| |caller attr| | | | | | |]; try (intro H; injection H as <- <-; auto).
    destruct (String.eqb attr "format"); try (intro H; injection H as <- <-; auto).
    destruct caller as [p' v|src| | | | | | | |]; try (intro H; injection H as <- <-; auto).
    + unfold bind, get, ret. rewrite in_varnames_vn. destruct (vn_mem v _); intro H; injection H as <- <-; auto.
    + unfold bind, literal_eval_M, ret, raise. destruct (Py.literal_eval src); simpl; try discriminate.
      intro H; injection H as <- <-; auto.
Qed.

Lemma frame_refl s : frame s s.
Proof. repeat split. Qed.

Lemma frame_trans s1 s2 s3 : frame s1 s2 -> frame s2 s3 -> frame s1 s3.
Proof. unfold frame. intuition congruence. Qed.

Lemma grow_refl s : excs_grow s s.
Proof. unfold excs_grow. destruct (excs_in_logfunc_call s); eauto. Qed.

Lemma grow_eq s s' : excs_in_logfunc_call s' = excs_in_logfunc_call s -> excs_grow s s'.
Proof. unfold excs_grow. intros ->. destruct (excs_in_logfunc_call s); eauto. Qed.

Lemma grow_trans s1 s2 s3 : excs_grow s1 s2 -> excs_grow s2 s3 -> excs_grow s1 s3.
Proof.
  unfold excs_grow. destruct (excs_in_logfunc_call s1) as [|h t].
  - intros H; rewrite H; auto.
  - intros (h2 & Hle & H2). rewrite H2. intros (h3 & Hle' & H3). exists h3. split; [lia|auto].
Qed.

Lemma quiet_refl s : quiet s s.
Proof. split; [apply frame_refl|reflexivity]. Qed.

Lemma quiet_trans s1 s2 s3 : quiet s1 s2 -> quiet s2 s3 -> quiet s1 s3.
Proof. intros [F1 E1] [F2 E2]. split; [eapply frame_trans; eauto|congruence]. Qed.

Lemma warn_at_node_quiet p m s u s' : warn_at_node p m s = Ok u s' -> quiet s s'.
Proof. unfold warn_at_node, modify. intro H; inversion H; subst. split; repeat split. Qed.

Lemma classify_args_quiet p args : forall lvl msg u s r s',
  classify_args p args lvl msg u s = Ok r s' -> quiet s s'.
Proof.
  induction args as [|[k st v] rest IH]; intros lvl msg u s r s' H; simpl in H.
  - inversion H; subst. apply quiet_refl.
  - inv_bind H. rename a into c. apply gsc_inv in E. destruct E as [_ ->].
    destruct c as [c|].
    + destruct (literal_is_loglevel c).
      * destruct lvl; [discriminate|]. eauto.
      * destruct (name_is_file c).
        -- inv_bind H. eapply quiet_trans; [eapply warn_at_node_quiet; eauto|eauto].
        -- destruct msg; eauto.
    + inv_bind H. unfold get in E. injection E as <- <-.
      destruct v; try destruct (mem _ _); eauto.
Qed.

Lemma get_logfunc_arguments_quiet p args s r s' :
  get_logfunc_arguments p args s = Ok r s' -> quiet s s'.
Proof.
  unfold get_logfunc_arguments. intro H. inv_bind H.
  apply classify_args_quiet in E. destruct a as [[lvl msg] u].
  inv_bind H. eapply quiet_trans; [exact E|]. eapply quiet_trans.
  - destruct (0 <? u); [eapply warn_at_node_quiet; eauto|unfold ret in E0; inversion E0; apply quiet_refl].
  - destruct msg, lvl; try discriminate. inversion H; apply quiet_refl.
Qed.

Lemma mapM_inv {A B} (g : A -> M B) (P : state -> state -> Prop)
  (Prefl : forall s, P s s) (Ptrans : forall s1 s2 s3, P s1 s2 -> P s2 s3 -> P s1 s3) :
  forall l, Forall (fun x => forall s y s', g x s = Ok y s' -> P s s') l ->
  forall s l' s', mapM g l s = Ok l' s' -> P s s'.
Proof.
  induction 1 as [|x r Hx Hr IH]; intros s l' s' H; simpl in H.
  - inversion H; subst; auto.
  - inv_bind H. inv_bind H. inversion H; subst. eauto.
Qed.

(** Induction on expressions, with the children in lists. *)
Section ExprInd.
Variables (P : expr -> Prop) (Q : arg -> Prop).
Hypothesis HName : forall p v, P (Name p v).
Hypothesis HStr : forall v, P (SimpleString v).
Hypothesis HAttr : forall v a, P v -> P (Attribute v a).
Hypothesis HCall : forall p f args, P f -> Forall Q args -> P (Call p f args).
Hypothesis HTuple : forall es, Forall P es -> P (Tuple es).
Hypothesis HStarred : forall v, P v -> P (Starred v).
Hypothesis HNamed : forall t v, P t -> P v -> P (NamedExpr t v).
Hypothesis HLambda : forall id ds b, Forall P ds -> P b -> P (Lambda id ds b).
Hypothesis HComp : forall id es t it rs,
  Forall P es -> P t -> P it -> Forall P rs -> P (Comp id es t it rs).
Hypothesis HOther : forall es, Forall P es -> P (OtherExpr es).
Hypothesis HArg : forall k st v, P v -> Q (Arg k st v).

Fixpoint expr_ind' (e : expr) : P e :=
  match e with
  | Name p v => HName p v
  | SimpleString v => HStr v
  | Attribute v a => HAttr v a (expr_ind' v)
  | Call p f args =>
      HCall p f args (expr_ind' f)
        ((fix go (l : list arg) : Forall Q l :=
            match l with
            | [] => Forall_nil Q
            | a :: r => Forall_cons a (arg_ind' a) (go r)
            end) args)
  | Tuple es =>
      HTuple es
        ((fix go (l : list expr) : Forall P l :=
            match l with
            | [] => Forall_nil P
            | x :: r => Forall_cons x (expr_ind' x) (go r)
            end) es)
  | Starred v => HStarred v (expr_ind' v)
  | NamedExpr t v => HNamed t v (expr_ind' t) (expr_ind' v)
  | Lambda id ds b =>
      HLambda id ds b
        ((fix go (l : list expr) : Forall P l :=
            match l with
            | [] => Forall_nil P
            | x :: r => Forall_cons x (expr_ind' x) (go r)
            end) ds)
        (expr_ind' b)
  | Comp id es t it rs =>
      HComp id es t it rs
        ((fix go (l : list expr) : Forall P l :=
            match l with
            | [] => Forall_nil P
            | x :: r => Forall_cons x (expr_ind' x) (go r)
            end) es)
        (expr_ind' t) (expr_ind' it)
        ((fix go (l : list expr) : Forall P l :=
            match l with
            | [] => Forall_nil P
            | x :: r => Forall_cons x (expr_ind' x) (go r)
            end) rs)
  | OtherExpr es =>
      HOther es
        ((fix go (l : list expr) : Forall P l :=
            match l with
            | [] => Forall_nil P
            | x :: r => Forall_cons x (expr_ind' x) (go r)
            end) es)
  end
with arg_ind' (a : arg) : Q a :=
  match a with
  | Arg k st v => HArg k st v (expr_ind' v)
  end.

End ExprInd.

Lemma scope_search_state n p sc m s r s' :
  scope_search n p sc m s = Ok r s' -> s' = s.
Proof.
  revert s r s'. induction n as [|n IH]; intros s r s' H; simpl in H; [discriminate|].
  destruct (in_map sc m); [inversion H; auto|].
  destruct (scope_eqb sc (scope_parent sc)); [discriminate|eauto].
Qed.

Section HookFrames.
Variables (ln : string) (qn : fundef_ref -> list string) (fuel : nat).

Lemma ensure_quiet sc node s u s' :
  ensure_assigned_format_is_percent fuel sc node s = Ok u s' -> quiet s s'.
Proof.
  unfold ensure_assigned_format_is_percent. destruct node; intro H;
    try (inversion H; subst; apply quiet_refl).
  inv_bind H. unfold get in E. injection E as <- <-.
  destruct (lookup_varnames value s); [|inversion H; subst; apply quiet_refl].
  inv_bind H. apply scope_search_state in E; subst.
  unfold modify in H. inversion H; subst.
  destruct (existsb _ _); [apply quiet_refl|split; repeat split].
Qed.

Lemma convert_message_quiet p sc msg s m s' :
  convert_message fuel p sc msg s = Ok m s' -> quiet s s'.
Proof.
  unfold convert_message. destruct (cs_format_args msg); intro H.
  - inversion H; subst; apply quiet_refl.
  - destruct (cs_name msg).
    + inv_bind H. inversion H; subst. eapply ensure_quiet; eauto.
    + destruct (cs_literal msg); [|discriminate].
      destruct (Py.percent_trial _ _) as [[]|]; try discriminate.
      inversion H; subst; apply quiet_refl.
Qed.

Lemma exc_scope_spec p s l s' :
  exc_scope qn p s = Ok l s' -> quiet s s' /\ l = label_of qn (function_context s).
Proof.
  unfold exc_scope. intro H. inv_bind H. unfold get in E. injection E as <- <-.
  unfold label_of. destruct (function_context s) as [|f fc].
  - inversion H; subst. split; [apply quiet_refl|reflexivity].
  - destruct (qn f) as [|q qs].
    + inv_bind H. inversion H; subst. split; [eapply warn_at_node_quiet; eauto|reflexivity].
    + inversion H; subst. split; [apply quiet_refl|reflexivity].
Qed.

Lemma pop_excs_spec s n s' :
  pop_excs s = Ok n s' -> frame s s' /\ excs_in_logfunc_call s = n :: excs_in_logfunc_call s'.
Proof.
  unfold pop_excs. intro H. inv_bind H. unfold get in E. injection E as <- <-.
  destruct (excs_in_logfunc_call s) as [|k r] eqn:Hs; [discriminate|].
  inv_bind H. unfold put in E. injection E as <- <-. inversion H; subst.
  split; [repeat split|simpl; reflexivity].
Qed.

Lemma change_logfunc_state sc p q f args p' f' args' s e s' :
  change_logfunc_to_logger ln qn fuel sc (Call p (Name q f) args) (Call p' f' args') s = Ok e s' ->
  frame s s' /\
  (if mem f (logfuncs s) then excs_in_logfunc_call s = hd 0 (excs_in_logfunc_call s) :: excs_in_logfunc_call s'
   else s' = s).
Proof.
  unfold change_logfunc_to_logger. intro H. inv_bind H. unfold get in E. injection E as <- <-.
  destruct (mem f (logfuncs s)) eqn:Hm; simpl in H.
  - inv_bind H. apply get_logfunc_arguments_quiet in E as [F1 E1].
    destruct a as [lvl msg]. inv_bind H. apply pop_excs_spec in E as [F2 E2].
    assert (Hq : quiet s1 s').
    { destruct (0 <? a).
      - inv_bind H. apply exc_scope_spec in E as [Q _]. unfold ret in H.
        injection H as _ <-. exact Q.
      - inv_bind H. apply convert_message_quiet in E. unfold ret in H.
        injection H as _ <-. exact E. }
    destruct Hq as [F3 E3].
    split.
    + eapply frame_trans; [eapply frame_trans; eauto|exact F3].
    + rewrite <- E1, E2, E3. reflexivity.
  - inversion H; subst. split; [apply frame_refl|reflexivity].
Qed.

Lemma enter_logfunc_state q f s u s' :
  enter_logfunc_context (Name q f) s = Ok u s' ->
  frame s s' /\
  excs_in_logfunc_call s' = if mem f (logfuncs s) then 0 :: excs_in_logfunc_call s
                            else excs_in_logfunc_call s.
Proof.
  unfold enter_logfunc_context. intro H. inv_bind H. unfold get in E. injection E as <- <-.
  destruct (mem f (logfuncs s)).
  - inv_bind H. unfold modify in E. injection E as <- <-.
    unfold add_needed_import, modify in H. inversion H; subst. split; [repeat split|reflexivity].
  - inversion H; subst. split; [apply frame_refl|reflexivity].
Qed.

Lemma set_exc_context_state x s u s' :
  set_exc_context x s = Ok u s' ->
  frame s s' /\ excs_grow s s' /\
  (forall h t, mem x (handled_exceptions s) = true -> excs_in_logfunc_call s = h :: t ->
   excs_in_logfunc_call s' = S h :: t).
Proof.
  unfold set_exc_context. intro H. inv_bind H. unfold get in E. injection E as <- <-.
  destruct (mem x (handled_exceptions s)) eqn:Hx.
  - destruct (excs_in_logfunc_call s) as [|n r] eqn:Hs.
    + inversion H; subst. split; [apply frame_refl|split; [apply grow_refl|intros; congruence]].
    + unfold put in H. inversion H; subst. split; [repeat split|split].
      * unfold excs_grow. rewrite Hs. exists (S n). simpl. split; [lia|reflexivity].
      * intros h t _ Ht. injection Ht as -> ->. reflexivity.
  - inversion H; subst. split; [apply frame_refl|split; [apply grow_refl|intros; congruence]].
Qed.

End HookFrames.

Definition fg (s s' : state) : Prop := frame s s' /\ excs_grow s s'.

Lemma fg_refl s : fg s s.
Proof. split; [apply frame_refl|apply grow_refl]. Qed.

Lemma fg_trans s1 s2 s3 : fg s1 s2 -> fg s2 s3 -> fg s1 s3.
Proof. intros [F1 G1] [F2 G2]. split; [eapply frame_trans|eapply grow_trans]; eauto. Qed.

Section TraversalFrames.
Variables (ln : string) (qn : fundef_ref -> list string) (fuel : nat).

Lemma tr_name_eq ins sc p v s : tr_expr ln qn fuel ins sc (Name p v) s = Ok (Name p v) s.
Proof. reflexivity. Qed.

Lemma tr_call_fg p f args :
  expr_fg ln qn fuel f -> Forall (arg_fg ln qn fuel) args -> expr_fg ln qn fuel (Call p f args).
Proof.
  intros IHf IHargs ins sc s e' s' H. cbn [tr_expr] in H.
  inv_bind H. inv_bind H. pose proof (IHf _ _ _ _ _ E0) as Gf.
  inv_bind H.
  assert (Ga : fg s1 s2).
  { revert E1. apply (mapM_inv _ fg fg_refl fg_trans).
    eapply Forall_impl; [|exact IHargs]. intros x Hx s3 y s4. apply Hx. }
  destruct f as [q v| | | | | | | | |]; simpl in E, H.
  2-10: injection E as _ <-; injection H as _ <-; eapply fg_trans; eassumption.
  - apply (enter_logfunc_state q v) in E as [F0 E0'].
    simpl in E0. injection E0 as <- <-. destruct Ga as [F1 G1].
    apply (change_logfunc_state ln qn fuel sc p q v args p) in H as [F2 E2].
    split; [eapply frame_trans; [eapply frame_trans; [exact F0|exact F1]|exact F2]|].
    destruct F0 as [L0 _]. destruct F1 as [L1 _]. rewrite L1, L0 in E2.
    destruct (mem v (logfuncs s)).
    + unfold excs_grow in G1. rewrite E0' in G1. destruct G1 as (h' & _ & G1).
      apply grow_eq. rewrite G1 in E2. simpl in E2. injection E2 as E2. auto.
    + subst. unfold excs_grow in *. rewrite E0' in G1. exact G1.
Qed.

Lemma mapM_expr_fg ins sc es : Forall (expr_fg ln qn fuel) es ->
  forall s l s', mapM (tr_expr ln qn fuel ins sc) es s = Ok l s' -> fg s s'.
Proof.
  intros IH. apply (mapM_inv _ fg fg_refl fg_trans).
  eapply Forall_impl; [|exact IH]. intros x Hx s2 y s3. apply Hx.
Qed.

Lemma tr_expr_fg : forall e, expr_fg ln qn fuel e.
Proof.
  apply (expr_ind' (expr_fg ln qn fuel) (arg_fg ln qn fuel)).
  - intros p v ins sc s e' s' H. inversion H; subst. apply fg_refl.
  - intros v ins sc s e' s' H. inversion H; subst. apply fg_refl.
  - intros v a IH ins sc s e' s' H. simpl in H. inv_bind H. apply IH in E.
    inversion H; subst. exact E.
  - exact tr_call_fg.
  - intros es IH ins sc s e' s' H. simpl in H. inv_bind H. inversion H; subst.
    eapply mapM_expr_fg; eauto.
  - intros v IH ins sc s e' s' H. simpl in H. inv_bind H. apply IH in E.
    inversion H; subst. exact E.
  - intros t v IHt IHv ins sc s e' s' H. simpl in H. inv_bind H. inv_bind H.
    inversion H; subst. eapply fg_trans; [eapply IHt|eapply IHv]; eauto.
  - intros id ds b IHds IHb ins sc s e' s' H. simpl in H. inv_bind H. inv_bind H.
    inversion H; subst. eapply fg_trans; [exact (mapM_expr_fg _ _ _ IHds _ _ _ E)|exact (IHb _ _ _ _ _ E0)].
  - intros id es t it rs IHes IHt IHit IHrs ins sc s e' s' H. simpl in H.
    inv_bind H. inv_bind H. inv_bind H. inv_bind H. inversion H; subst.
    eapply fg_trans; [exact (mapM_expr_fg _ _ _ IHes _ _ _ E)|].
    eapply fg_trans; [exact (IHt _ _ _ _ _ E0)|].
    eapply fg_trans; [exact (IHit _ _ _ _ _ E1)|].
    exact (mapM_expr_fg _ _ _ IHrs _ _ _ E2).
  - intros es IH ins sc s e' s' H. simpl in H. inv_bind H. inversion H; subst.
    eapply mapM_expr_fg; eauto.
  - intros k st v IH ins sc s a' s' H. simpl in H. inv_bind H. inv_bind H.
    apply IH in E0. inversion H; subst. eapply fg_trans; [|exact E0].
    destruct v; try (unfold ret in E; injection E as _ <-; apply fg_refl).
    destruct ins; [|unfold ret in E; injection E as _ <-; apply fg_refl].
    apply set_exc_context_state in E as (F & G & _). split; auto.
Qed.

Lemma tr_arg_fg : forall a, arg_fg ln qn fuel a.
Proof.
  intros [k st v] ins sc s a' s' H. simpl in H. inv_bind H. inv_bind H.
  apply tr_expr_fg in E0. inversion H; subst. eapply fg_trans; [|exact E0].
  destruct v; try (unfold ret in E; injection E as _ <-; apply fg_refl).
  destruct ins; [|unfold ret in E; injection E as _ <-; apply fg_refl].
  apply set_exc_context_state in E as (F & G & _). split; auto.
Qed.

End TraversalFrames.

Lemma gt_grow s1 s2 s3 : excs_gt s1 s2 -> excs_grow s2 s3 -> excs_gt s1 s3.
Proof.
  intros (h & t & h' & E1 & E2 & L). unfold excs_grow. rewrite E2.
  intros (h'' & L' & E3). exists h, t, h''. repeat split; auto. lia.
Qed.

Lemma grow_gt s1 s2 s3 : excs_grow s1 s2 -> excs_gt s2 s3 -> excs_gt s1 s3.
Proof.
  unfold excs_grow. intros G (h & t & h' & E2 & E3 & L).
  destruct (excs_in_logfunc_call s1) as [|k r] eqn:E1; [congruence|].
  destruct G as (k' & Lk & Ek). rewrite E2 in Ek. injection Ek as <- <-.
  exists k, t, h'. repeat split; auto. lia.
Qed.

Section TraversalCounts.
Variables (ln : string) (qn : fundef_ref -> list string) (fuel : nat).

Lemma tr_expr_call ins sc p f args :
  tr_expr ln qn fuel ins sc (Call p f args) =
  ((if is_name f then enter_logfunc_context f else ret tt) ;;
   f' <- tr_expr ln qn fuel (ins || is_name f) sc f ;;
   args' <- mapM (tr_arg ln qn fuel (ins || is_name f) sc) args ;;
   if is_name f then change_logfunc_to_logger ln qn fuel sc (Call p f args) (Call p f' args')
   else ret (Call p f' args')).
Proof. reflexivity. Qed.

Lemma handled_arg_gt k st q x sc s a' s' :
  mem x (handled_exceptions s) = true -> excs_in_logfunc_call s <> [] ->
  tr_arg ln qn fuel true sc (Arg k st (Name q x)) s = Ok a' s' -> excs_gt s s'.
Proof.
  intros Hx Hne H. simpl in H. inv_bind H. inv_bind H. simpl in E0. unfold ret in E0, H.
  injection E0 as <- <-. injection H as _ <-.
  apply set_exc_context_state in E as (_ & _ & Hs).
  destruct (excs_in_logfunc_call s) as [|h t] eqn:Es; [congruence|].
  exists h, t, (S h). repeat split; auto.
Qed.

Lemma args_gt sc : forall args s l s',
  existsb (direct_handled (handled_exceptions s)) args = true ->
  excs_in_logfunc_call s <> [] ->
  mapM (tr_arg ln qn fuel true sc) args s = Ok l s' -> excs_gt s s'.
Proof.
  induction args as [|a r IH]; intros s l s' Hex Hne H; [discriminate|].
  simpl in H. inv_bind H. inv_bind H. injection H as _ <-.
  assert (Fr : fg s0 s1).
  { revert E0. apply (mapM_inv _ fg fg_refl fg_trans).
    apply Forall_forall. intros x _ s2 y s3. apply tr_arg_fg. }
  simpl in Hex. apply orb_true_iff in Hex as [Ha|Hr].
  - destruct a as [k st [q x| | | | | | | | |]]; try discriminate. simpl in Ha.
    eapply gt_grow; [eapply handled_arg_gt; eauto|apply Fr].
  - pose proof (tr_arg_fg ln qn fuel _ _ _ _ _ _ E) as [[_ [Hh _]] G].
    eapply grow_gt; [exact G|]. eapply IH; [rewrite Hh; exact Hr| |exact E0].
    unfold excs_grow in G. destruct (excs_in_logfunc_call s) as [|h t]; [congruence|].
    destruct G as (h' & _ & ->). discriminate.
Qed.

End TraversalCounts.

Lemma rb_neq c r : c <> "{"%char -> Py.replace_braces (String c r) = String c (Py.replace_braces r).
Proof. intro H. destruct c as [[] [] [] [] [] [] [] []]; try reflexivity; exfalso; apply H; reflexivity. Qed.

Lemma cb_neq c r : c <> "{"%char -> count_braces (String c r) = count_braces r.
Proof. intro H. destruct c as [[] [] [] [] [] [] [] []]; try reflexivity; exfalso; apply H; reflexivity. Qed.

Lemma rb_lbrace_neq d r : d <> "}"%char ->
  Py.replace_braces (String "{" (String d r)) = String "{" (Py.replace_braces (String d r)).
Proof. intro H. destruct d as [[] [] [] [] [] [] [] []]; try reflexivity; exfalso; apply H; reflexivity. Qed.

Lemma cb_lbrace_neq d r : d <> "}"%char ->
  count_braces (String "{" (String d r)) = count_braces (String d r).
Proof. intro H. destruct d as [[] [] [] [] [] [] [] []]; try reflexivity; exfalso; apply H; reflexivity. Qed.

Lemma pct_text_other c l n : c <> "%"%char -> Py.pct Py.PText (c :: l) n = Py.pct Py.PText l n.
Proof. intro H. simpl. apply Ascii.eqb_neq in H. rewrite H. reflexivity. Qed.

Lemma trial_cons c s n : c <> "%"%char -> Py.percent_trial (String c s) n = Py.percent_trial s n.
Proof. intro H. unfold Py.percent_trial. apply pct_text_other, H. Qed.

Lemma no_percent_cons c r : no_percent (String c r) = true -> c <> "%"%char /\ no_percent r = true.
Proof.
  unfold no_percent, Py.ascii_in. simpl. intro H. apply negb_true_iff, orb_false_iff in H as [H1 H2].
  split; [|rewrite H2; reflexivity]. intros ->. discriminate.
Qed.

Lemma percent_trial_braces : forall t n, no_percent t = true ->
  Py.percent_trial (Py.replace_braces t) n =
  if count_braces t =? n then None else Some Py.FmtTypeError.
Proof.
  intro t. remember (String.length t) as k. revert t Heqk.
  induction k as [k IH] using lt_wf_ind. intros t -> n Hp.
  destruct t as [|c r].
  - destruct n; reflexivity.
  - apply no_percent_cons in Hp as Hcr. destruct Hcr as [Hc Hr].
    destruct (ascii_dec c "{") as [->|Hb].
    + destruct r as [|d r'].
      * destruct n; reflexivity.
      * destruct (ascii_dec d "}") as [->|Hd].
        -- change (Py.replace_braces (String "{" (String "}" r')))
             with (String "%" (String "s" (Py.replace_braces r'))).
           change (count_braces (String "{" (String "}" r'))) with (S (count_braces r')).
           apply no_percent_cons in Hr as [_ Hr'].
           destruct n as [|n']; [reflexivity|].
           unfold Py.percent_trial. simpl. fold (Py.percent_trial (Py.replace_braces r') n').
           apply (IH (String.length r')); [simpl; lia|reflexivity|exact Hr'].
        -- rewrite rb_lbrace_neq, cb_lbrace_neq by exact Hd.
           rewrite trial_cons by exact Hc.
           apply (IH (String.length (String d r'))); [simpl; lia|reflexivity|exact Hr].
    + rewrite rb_neq, cb_neq by exact Hb. rewrite trial_cons by exact Hc.
      apply (IH (String.length r)); [simpl; lia|reflexivity|exact Hr].
Qed.

Lemma classify_template p k st p2 src t fa k' st' lsrc lvl s :
  Py.literal_eval src = Py.LStr t -> mem t LOGLEVELS = false ->
  Py.literal_eval lsrc = Py.LStr lvl -> mem lvl LOGLEVELS = true ->
  classify_args p [Arg k st (Call p2 (Attribute (SimpleString src) "format") fa);
                   Arg k' st' (SimpleString lsrc)] None None 0 s =
  Ok (Some lvl, Some (mkCSTString None (Some t) fa), 0) s.
Proof.
  intros Hsrc Ht Hlsrc Hlvl. cbn [classify_args].
  rewrite (bind_Ok _ _ s (Some (mkCSTString None (Some t) fa)) s)
    by (apply gsc_ok; simpl; rewrite Hsrc; reflexivity).
  unfold literal_is_loglevel at 1. cbn [cs_literal]. rewrite Ht.
  unfold name_is_file at 1. cbn [cs_name].
  rewrite (bind_Ok _ _ s (Some (mkCSTString None (Some lvl) [])) s)
    by (apply gsc_ok; simpl; rewrite Hlsrc; reflexivity).
  unfold literal_is_loglevel. cbn [cs_literal]. rewrite Hlvl. reflexivity.
Qed.

Lemma change_template_call ln qn fuel sc p q f k st p2 src t fa k' st' lsrc lvl r p' f' args' s :
  mem f (logfuncs s) = true ->
  Py.literal_eval src = Py.LStr t -> mem t LOGLEVELS = false ->
  Py.literal_eval lsrc = Py.LStr lvl -> mem lvl LOGLEVELS = true ->
  excs_in_logfunc_call s = 0 :: r -> fa <> [] ->
  change_logfunc_to_logger ln qn fuel sc (template_call p q f k st p2 src fa k' st' lsrc)
    (Call p' f' args') s =
  match Py.percent_trial (Py.replace_braces t) (length fa) with
  | None => Ok (logger_call p' lvl (SimpleString (Py.repr (Py.replace_braces t))) fa) (set_excs r s)
  | Some Py.FmtTypeError =>
      Raised (LogFuncReplaceException
                (at_pos p "Failed to convert str.format() call to %-style format string"))
  | Some Py.FmtValueError => Raised (ValueError "unsupported format")
  end.
Proof.
  intros Hf Hsrc Ht Hlsrc Hlvl Hx Hfa.
  unfold change_logfunc_to_logger, template_call. unfold bind at 1. unfold get at 1.
  rewrite Hf. simpl negb. cbv iota.
  cbn [negb].
  assert (Hg : get_logfunc_arguments p
                 [Arg k st (Call p2 (Attribute (SimpleString src) "format") fa);
                  Arg k' st' (SimpleString lsrc)] s = Ok (lvl, mkCSTString None (Some t) fa) s).
  { unfold get_logfunc_arguments.
    rewrite (bind_Ok _ _ s _ s (classify_template p k st p2 src t fa k' st' lsrc lvl s Hsrc Ht Hlsrc Hlvl)).
    reflexivity. }
  rewrite (bind_Ok _ _ s _ s Hg). cbv iota beta.
  assert (Hp : pop_excs s = Ok 0 (set_excs r s)).
  { unfold pop_excs, bind, get. rewrite Hx. reflexivity. }
  rewrite (bind_Ok _ _ s _ _ Hp). cbn [Nat.ltb Nat.leb].
  unfold convert_message. cbn [cs_format_args cs_name cs_literal].
  destruct fa as [|a fa]; [congruence|].
  destruct (Py.percent_trial _ _) as [[]|]; reflexivity.
Qed.

Lemma check_global_ok ln m s u s' :
  check_global_scope_for_logger ln m s = Ok u s' ->
  global_statements s' = app (global_statements s) [ln ++ " = logging.getLogger(__name__)"].
Proof.
  unfold check_global_scope_for_logger. destruct (in_global_scope ln m); [discriminate|].
  unfold add_global_statement, modify. intro H. injection H as _ <-. reflexivity.
Qed.

Lemma scope_search_stuck n p sc m s :
  in_map sc m = false -> scope_eqb sc (scope_parent sc) = false ->
  scope_search n p sc m s = OutOfFuel.
Proof.
  intros Hm Hp. induction n as [|n IH]; [reflexivity|]. simpl. rewrite Hm, Hp. exact IH.
Qed.

Lemma count_loglevels_cons vn a r :
  count_loglevels vn (a :: r) = (if is_loglevel_arg vn a then 1 else 0) + count_loglevels vn r.
Proof. unfold count_loglevels. simpl. destruct (is_loglevel_arg vn a); reflexivity. Qed.

Lemma literal_is_loglevel_some c : literal_is_loglevel c = true -> exists l, cs_literal c = Some l.
Proof. unfold literal_is_loglevel. destruct (cs_literal c); [eauto|discriminate]. Qed.

Lemma classify_two_levels p : forall args lvl msg u s,
  forallb (literals_ok (string_varnames s)) args = true ->
  2 <= (match lvl with Some _ => 1 | None => 0 end) + count_loglevels (string_varnames s) args ->
  classify_args p args lvl msg u s = Raised raise_at_node_arity_error.
Proof.
  induction args as [|[k st v] r IH]; intros lvl msg u s Hok Hc.
  - unfold count_loglevels in Hc. destruct lvl; simpl in Hc; lia.
  - simpl in Hok. apply andb_true_iff in Hok as [Ha Hr].
    rewrite count_loglevels_cons in Hc. unfold literals_ok, is_loglevel_arg in *. simpl arg_value in *.
    cbn [classify_args].
    destruct (string_components (string_varnames s) v) as [oc|] eqn:Hsc; [|discriminate].
    rewrite (bind_Ok _ _ s oc s) by (apply gsc_ok; exact Hsc).
    destruct oc as [c|].
    + destruct (literal_is_loglevel c) eqn:Hl.
      * destruct lvl; [reflexivity|]. apply IH; [exact Hr|].
        destruct (literal_is_loglevel_some c Hl) as [l ->]. simpl in *. lia.
      * destruct (name_is_file c).
        -- rewrite (bind_Ok (warn_at_node p _) _ s tt _ eq_refl).
           apply IH; [exact Hr|exact Hc].
        -- destruct msg; apply IH; assumption.
    + rewrite (bind_Ok get _ s s s eq_refl).
      destruct v; try destruct (mem _ _); apply IH; assumption.
Qed.

Lemma classify_result p : forall args lvl msg u s,
  forallb (literals_ok (string_varnames s)) args = true ->
  (match lvl with Some _ => 1 | None => 0 end) + count_loglevels (string_varnames s) args <= 1 ->
  exists lvl' msg' u' s', classify_args p args lvl msg u s = Ok (lvl', msg', u') s' /\
    (lvl = None -> count_loglevels (string_varnames s) args = 0 -> lvl' = None) /\
    (msg = None -> forallb (fun a => negb (is_msg_candidate (string_varnames s) a)) args = true ->
     msg' = None).
Proof.
  induction args as [|[k st v] r IH]; intros lvl msg u s Hok Hc.
  - simpl. do 4 eexists. split; [reflexivity|]. split; auto.
  - simpl in Hok. apply andb_true_iff in Hok as [Ha Hr].
    rewrite count_loglevels_cons in Hc. rewrite count_loglevels_cons.
    cbn [forallb].
    unfold literals_ok, is_loglevel_arg, is_msg_candidate in *. simpl arg_value in *.
    cbn [classify_args].
    destruct (string_components (string_varnames s) v) as [oc|] eqn:Hsc; [|discriminate].
    rewrite (bind_Ok _ _ s oc s) by (apply gsc_ok; exact Hsc).
    destruct oc as [c|].
    + destruct (literal_is_loglevel c) eqn:Hl.
      * destruct lvl; [simpl in Hc; lia|].
        destruct (literal_is_loglevel_some c Hl) as [l Hcl]. rewrite Hcl.
        destruct (IH (Some l) msg u s Hr) as (lvl' & msg' & u' & s' & E & _ & M); [lia|].
        exists lvl', msg', u', s'. split; [exact E|]. split; [intros _ H; lia|].
        intros Hm Hf. apply M; [exact Hm|exact Hf].
      * destruct (name_is_file c) eqn:Hn.
        -- rewrite (bind_Ok (warn_at_node p _) _ s tt _ eq_refl).
           destruct (IH lvl msg u (set_warnings (warnings s ++ [at_pos p "File argument in logfunc call"]) s) Hr) as (lvl' & msg' & u' & s' & E & L & M); [simpl; lia|].
           exists lvl', msg', u', s'. split; [exact E|]. split; [exact L|exact M].
        -- destruct msg as [m0|].
           ++ destruct (IH lvl (Some m0) (S u) s Hr) as (lvl' & msg' & u' & s' & E & L & M); [lia|].
              exists lvl', msg', u', s'. split; [exact E|]. split; [exact L|discriminate].
           ++ destruct (IH lvl (Some c) u s Hr) as (lvl' & msg' & u' & s' & E & L & M); [lia|].
              exists lvl', msg', u', s'. split; [exact E|]. split; [exact L|].
              intros _ Hf. discriminate.
    + rewrite (bind_Ok get _ s s s eq_refl).
      assert (Hrec : forall u0, exists lvl' msg' u' s',
                 classify_args p r lvl msg u0 s = Ok (lvl', msg', u') s' /\
                 (lvl = None -> count_loglevels (string_varnames s) r = 0 -> lvl' = None) /\
                 (msg = None -> forallb (fun a => negb (is_msg_candidate (string_varnames s) a)) r = true ->
                  msg' = None)).
      { intro u0. apply IH; [exact Hr|lia]. }
      destruct v; try destruct (mem _ _); apply Hrec.
Qed.

Lemma change_logfunc_raise ln qn fuel sc p q f args p' f' args' s e :
  mem f (logfuncs s) = true -> get_logfunc_arguments p args s = Raised e ->
  change_logfunc_to_logger ln qn fuel sc (Call p (Name q f) args) (Call p' f' args') s = Raised e.
Proof.
  intros Hf Hg. unfold change_logfunc_to_logger. rewrite (bind_Ok get _ s s s eq_refl).
  rewrite Hf. cbn [negb]. apply bind_Raised, Hg.
Qed.

Lemma handled_in_open evs : forall s u s' stk stk',
  (forall x, mem x (handled_exceptions s) = true -> In x stk) ->
  open_handlers evs stk = Some stk' -> run_hooks evs s = Ok u s' ->
  forall x, mem x (handled_exceptions s') = true -> In x stk'.
Proof.
  induction evs as [|ev r IH]; intros s u s' stk stk' Hinv Ho Hr.
  - simpl in Ho, Hr. injection Ho as <-. injection Hr as _ <-. exact Hinv.
  - simpl in Hr. inv_bind Hr. destruct ev as [n|n]; simpl in Ho, E.
    + unfold push_named_exception, modify in E. injection E as _ <-.
      eapply IH; [|exact Ho|exact Hr]. simpl. intros x Hx.
      unfold set_add in Hx. destruct (mem n (handled_exceptions s)) eqn:Hn.
      * right. apply Hinv, Hx.
      * unfold mem in Hx. rewrite existsb_app in Hx. apply orb_true_iff in Hx as [Hx|Hx].
        -- right. apply Hinv, Hx.
        -- left. simpl in Hx. rewrite orb_false_r in Hx. apply String.eqb_eq in Hx. congruence.
    + destruct stk as [|m stk0]; [discriminate|].
      destruct (String.eqb_spec n m) as [<-|]; [|discriminate].
      unfold pop_named_exception, modify in E. injection E as _ <-.
      eapply IH; [|exact Ho|exact Hr]. simpl. intros x Hx.
      unfold mem, set_discard in Hx. apply existsb_exists in Hx as (y & Hy & Hxy).
      apply filter_In in Hy as [Hy Hny]. apply String.eqb_eq in Hxy. subst y.
      destruct (Hinv x) as [->|Hin].
      * unfold mem. apply existsb_exists. exists x. split; [exact Hy|apply String.eqb_refl].
      * rewrite String.eqb_refl in Hny. discriminate.
      * exact Hin.
Qed.

Lemma mem_discard n l : mem n (set_discard n l) = false.
Proof.
  unfold mem, set_discard. induction l as [|a l IH]; [reflexivity|]. simpl.
  destruct (String.eqb n a) eqn:E; simpl; [exact IH|]. rewrite E. exact IH.
Qed.

Lemma run_hooks_leave pre : forall n s u s',
  run_hooks (app pre [HLeave n]) s = Ok u s' -> mem n (handled_exceptions s') = false.
Proof.
  induction pre as [|ev r IH]; intros n s u s' H; simpl in H; inv_bind H.
  - unfold pop_named_exception, modify in E. injection E as _ <-.
    unfold ret in H. injection H as _ <-. apply mem_discard.
  - eapply IH; exact H.
Qed.

(* ------------------------------------------------------------------ *)
(** ** The claims *)




(** C2: a call to a log function with a bare handled-exception name among
    its arguments, when the rewrite succeeds, becomes
    [<logger_name>.exception("Error in function: <label>", exc_info=True)],
    whatever its other arguments; the label is the first qualified name of
    the innermost open function ([UNKNOWN] if it has none), or [Module]
    outside any function.  The hypothesis of success excludes the calls the
    classification rejects. *)
Theorem C2_exception_branch ln qn fuel ins sc p q f args s e' s' :
  mem f (logfuncs s) = true ->
  existsb (direct_handled (handled_exceptions s)) args = true ->
  tr_expr ln qn fuel ins sc (Call p (Name q f) args) s = Ok e' s' ->
  e' = exception_call ln p (label_of qn (function_context s)).
Proof.
  intros Hf Hex H. rewrite tr_expr_call in H. cbn [is_name] in H. rewrite orb_true_r in H.
  inv_bind H. apply (enter_logfunc_state q f) in E as [F0 E0]. rewrite Hf in E0.
  inv_bind H. simpl in E. unfold ret in E. injection E as <- <-.
  inv_bind H.
  destruct F0 as (L0 & H0 & C0 & _).
  assert (Gt : excs_gt s0 s1).
  { apply (args_gt ln qn fuel sc args s0 a0 s1); [rewrite H0; exact Hex|rewrite E0; discriminate|exact E]. }
  assert (Fr : fg s0 s1).
  { revert E. apply (mapM_inv _ fg fg_refl fg_trans).
    apply Forall_forall. intros x _ s2 y s3. apply tr_arg_fg. }
  destruct Fr as [(L1 & _ & C1 & _) _].
  destruct Gt as (h & t & h' & Eh & Eh' & Lh). rewrite E0 in Eh. injection Eh as <- Et. subst t.
  unfold change_logfunc_to_logger in H. inv_bind H. unfold get in E1. injection E1 as <- <-.
  rewrite L1, L0, Hf in H. simpl in H.
  inv_bind H. apply get_logfunc_arguments_quiet in E1 as [(_ & _ & C2 & _) Ex2].
  destruct a1 as [lvl msg]. inv_bind H. apply pop_excs_spec in E1 as [(_ & _ & C3 & _) Ex3].
  rewrite Ex2, Eh' in Ex3. injection Ex3 as <- _.
  destruct (Nat.ltb_spec 0 h') as [_|]; [|lia].
  inv_bind H. apply exc_scope_spec in E1 as [_ ->]. unfold ret in H. injection H as <- _.
  rewrite C3, C2, C1, C0. reflexivity.
Qed.
Lemma C2_exception_branch_witness :
  exists e' s',
    tr_expr "logger" top_level_qualnames 100 false GlobalScope
      (Call (3, 4) (Name (3, 4) "eprint") [parg (dstr "Failed"); parg (Name (3, 21) "e"); parg (dstr "ERROR")])
      (witness_state ["e"] []) = Ok e' s' /\
    e' = exception_call "logger" (3, 4) "Module".
Proof.
  destruct (tr_expr "logger" top_level_qualnames 100 false GlobalScope
      (Call (3, 4) (Name (3, 4) "eprint") [parg (dstr "Failed"); parg (Name (3, 21) "e"); parg (dstr "ERROR")])
      (witness_state ["e"] [])) as [e' s'| | |] eqn:E;
    [|vm_compute in E; discriminate|vm_compute in E; discriminate|vm_compute in E; discriminate].
  exists e', s'. split; [reflexivity|].
  exact (C2_exception_branch "logger" top_level_qualnames 100 false GlobalScope (3, 4) (3, 4) "eprint"
           [parg (dstr "Failed"); parg (Name (3, 21) "e"); parg (dstr "ERROR")]
           (witness_state ["e"] []) e' s' eq_refl eq_refl E).
Defined.

(** C2 fails as stated: inside [except ValueError as e:], [eprint(e, "ERROR")]
    has no message argument and the classification that runs first makes
    the transform fail with "Malformed logfunc call" instead of producing
    the [exception] call. *)
Lemma C2_counterexample :
  run exc_no_message_module =
  Raised (LogFuncReplaceException (at_pos (3, 4) "Malformed logfunc call")).
Proof. vm_compute. reflexivity. Qed.




(** C4: scheduling the same global statement twice appends it twice, and
    [AddGlobalStatements.leave_Module] then inserts two copies after the
    imports, where scheduling it once inserts one. *)
Theorem C4_statement_scheduled_twice src body s :
  exists s2,
    (add_global_statement src ;; add_global_statement src) s = Ok tt s2 /\
    global_statements s2 = app (global_statements s) [src; src] /\
    AddGlobalStatements.leave_Module (AddGlobalStatements.init_statements [] [src; src]) body =
      app (fst (AddGlobalStatements.split_module body))
          (Parsed src :: Parsed src :: snd (AddGlobalStatements.split_module body)) /\
    AddGlobalStatements.leave_Module (AddGlobalStatements.init_statements [] [src]) body =
      app (fst (AddGlobalStatements.split_module body))
          (Parsed src :: snd (AddGlobalStatements.split_module body)).
Proof.
  eexists. split; [reflexivity|]. split.
  - simpl. rewrite <- app_assoc. reflexivity.
  - unfold AddGlobalStatements.leave_Module, AddGlobalStatements.init_statements. simpl.
    destruct (AddGlobalStatements.split_module body). split; reflexivity.
Qed.

(** C5: a module in whose global scope the logger name is found (bound
    at module scope by an assignment target, tuple, list and starred
    targets included, an assignment expression, an import, a [def] or an
    [except ... as], as the output of a previous run binds it; or a
    builtin name) makes the transform fail with "Module scope already
    contains the name <logger_name>". *)
Theorem C5_existing_logger_aborts ln qn fuel m s :
  in_global_scope ln m = true ->
  transform_module ln qn fuel m s =
  Raised (LogFuncReplaceException ("Module scope already contains the name " ++ ln)).
Proof.
  intro H. unfold transform_module. apply bind_Raised.
  unfold check_global_scope_for_logger. rewrite H. reflexivity.
Qed.

Lemma C5_existing_logger_aborts_witness :
  transform_module "logger" top_level_qualnames 100 converted_module (init_state ["eprint"]) =
  Raised (LogFuncReplaceException ("Module scope already contains the name " ++ "logger")).
Proof. apply C5_existing_logger_aborts. reflexivity. Defined.

(** C5 fails as stated: re-running on converted output raises. *)
Lemma C5_counterexample :
  run converted_module =
  Raised (LogFuncReplaceException "Module scope already contains the name logger").
Proof. vm_compute. reflexivity. Qed.

(** C6: with two or more recognized level literals among the arguments
    (all literals in the model of [literal_eval]), the rewrite of a
    log-function call raises the [TypeError] of calling [raise_at_node]
    without its [msg] argument. *)
Theorem C6_two_levels_type_error ln qn fuel sc p q f args p' f' args' s :
  mem f (logfuncs s) = true ->
  forallb (literals_ok (string_varnames s)) args = true ->
  2 <= count_loglevels (string_varnames s) args ->
  change_logfunc_to_logger ln qn fuel sc (Call p (Name q f) args) (Call p' f' args') s =
  Raised raise_at_node_arity_error.
Proof.
  intros Hf Hok Hc. apply change_logfunc_raise; [exact Hf|].
  unfold get_logfunc_arguments. apply bind_Raised, classify_two_levels; [exact Hok|exact Hc].
Qed.

Lemma C6_two_levels_type_error_witness :
  change_logfunc_to_logger "logger" top_level_qualnames 100 GlobalScope
    (Call (1, 0) (Name (1, 0) "eprint") [parg (dstr "a"); parg (dstr "INFO"); parg (dstr "ERROR")])
    (Call (1, 0) (Name (1, 0) "eprint") [parg (dstr "a"); parg (dstr "INFO"); parg (dstr "ERROR")])
    (witness_state [] [0]) =
  Raised raise_at_node_arity_error.
Proof.
  apply (C6_two_levels_type_error "logger" top_level_qualnames 100 GlobalScope (1, 0) (1, 0) "eprint"
           [parg (dstr "a"); parg (dstr "INFO"); parg (dstr "ERROR")] (1, 0) (Name (1, 0) "eprint")
           [parg (dstr "a"); parg (dstr "INFO"); parg (dstr "ERROR")] (witness_state [] [0]));
    [reflexivity|reflexivity|vm_compute; lia].
Defined.

(** The whole transform on [eprint("a", "INFO", "ERROR")]. *)
Lemma C6_failing_run :
  run two_levels_module = Raised raise_at_node_arity_error.
Proof. vm_compute. reflexivity. Qed.

(** C7: starting from no handled names, after a well-bracketed sequence of
    handler entries and exits every handled name is bound by a handler
    still open, and the name of the handler left last is no longer
    handled, even if an enclosing open handler binds it too. *)
Theorem C7_handled_names_are_open evs s u s' stk :
  handled_exceptions s = [] ->
  open_handlers evs [] = Some stk ->
  run_hooks evs s = Ok u s' ->
  (forall x, mem x (handled_exceptions s') = true -> In x stk) /\
  (forall pre n, evs = app pre [HLeave n] -> mem n (handled_exceptions s') = false).
Proof.
  intros H0 Ho Hr. split.
  - eapply handled_in_open; [|exact Ho|exact Hr]. rewrite H0. discriminate.
  - intros pre n ->. eapply run_hooks_leave; exact Hr.
Qed.

Lemma C7_handled_names_are_open_witness :
  exists s',
    run_hooks [HEnter "e"; HEnter "f"; HLeave "f"] (init_state []) = Ok tt s' /\
    (forall x, mem x (handled_exceptions s') = true -> In x ["e"]) /\
    mem "f" (handled_exceptions s') = false.
Proof.
  destruct (run_hooks [HEnter "e"; HEnter "f"; HLeave "f"] (init_state [])) as [u s'| | |] eqn:E;
    [|vm_compute in E; discriminate|vm_compute in E; discriminate|vm_compute in E; discriminate].
  destruct (C7_handled_names_are_open [HEnter "e"; HEnter "f"; HLeave "f"] (init_state []) u s' ["e"]
              eq_refl eq_refl E) as [H1 H2].
  exists s'. destruct u. split; [reflexivity|]. split; [exact H1|].
  exact (H2 [HEnter "e"; HEnter "f"] "f" eq_refl).
Defined.

(** C7 fails as stated: with two nested handlers binding [e], leaving the
    inner one unbinds [e] for the rest of the outer one, and the log call
    there is converted as an ordinary message. *)
Lemma C7_counterexample :
  open_handlers nested_same_name_events [] = Some ["e"] /\
  (exists s', run_hooks nested_same_name_events (init_state []) = Ok tt s' /\
              mem "e" (handled_exceptions s') = false) /\
  out_module (run nested_same_name_module) = Some nested_same_name_module_out.
Proof.
  split; [reflexivity|]. split.
  - eexists. split; reflexivity.
  - vm_compute. reflexivity.
Qed.

(** C8: the normal branch builds its call on the fixed name [logger], the
    exception branch on the configured [logger_name], and the scheduled
    module statement binds [logger_name]. *)
Theorem C8_logger_base_names ln qn fuel sc p q f args p' f' args' s e' s' n r m s0 u s1 :
  mem f (logfuncs s) = true -> excs_in_logfunc_call s = n :: r ->
  change_logfunc_to_logger ln qn fuel sc (Call p (Name q f) args) (Call p' f' args') s = Ok e' s' ->
  check_global_scope_for_logger ln m s0 = Ok u s1 ->
  (n = 0 -> exists attr xs, e' = Call p' (Attribute (Name nopos "logger") attr) xs) /\
  (0 < n -> exists xs, e' = Call p' (Attribute (Name nopos ln) "exception") xs) /\
  global_statements s1 = app (global_statements s0) [ln ++ " = logging.getLogger(__name__)"].
Proof.
  intros Hf Hx H Hg. split; [|split]; [| |exact (check_global_ok _ _ _ _ _ Hg)];
  unfold change_logfunc_to_logger in H; inv_bind H; unfold get in E; injection E as <- <-;
  rewrite Hf in H; simpl in H; inv_bind H; apply get_logfunc_arguments_quiet in E as [_ Ex];
  destruct a as [lvl msg]; inv_bind H; apply pop_excs_spec in E as [_ Ep];
  rewrite Ex, Hx in Ep; injection Ep as <- _; intro Hn.
  - subst n. simpl in H. inv_bind H. unfold ret in H. injection H as <- _.
    unfold logger_call. eauto.
  - destruct (Nat.ltb_spec 0 n) as [_|]; [|lia].
    inv_bind H. unfold ret in H. injection H as <- _. unfold exception_call. eauto.
Qed.

Lemma C8_logger_base_names_witness :
  exists e' s' s1,
    change_logfunc_to_logger "log" top_level_qualnames 100 GlobalScope
      (Call (1, 0) (Name (1, 0) "eprint") [parg (dstr "done"); parg (dstr "INFO")])
      (Call (1, 0) (Name (1, 0) "eprint") [parg (dstr "done"); parg (dstr "INFO")])
      (witness_state [] [0]) = Ok e' s' /\
    check_global_scope_for_logger "log" [] (witness_state [] [0]) = Ok tt s1 /\
    (exists attr xs, e' = Call (1, 0) (Attribute (Name nopos "logger") attr) xs) /\
    global_statements s1 = ["log = logging.getLogger(__name__)"].
Proof.
  destruct (change_logfunc_to_logger "log" top_level_qualnames 100 GlobalScope
      (Call (1, 0) (Name (1, 0) "eprint") [parg (dstr "done"); parg (dstr "INFO")])
      (Call (1, 0) (Name (1, 0) "eprint") [parg (dstr "done"); parg (dstr "INFO")])
      (witness_state [] [0])) as [e' s'| | |] eqn:E;
    [|vm_compute in E; discriminate|vm_compute in E; discriminate|vm_compute in E; discriminate].
  destruct (check_global_scope_for_logger "log" [] (witness_state [] [0])) as [u s1| | |] eqn:G;
    [|vm_compute in G; discriminate|vm_compute in G; discriminate|vm_compute in G; discriminate].
  destruct (C8_logger_base_names "log" top_level_qualnames 100 GlobalScope (1, 0) (1, 0) "eprint"
              [parg (dstr "done"); parg (dstr "INFO")] (1, 0) (Name (1, 0) "eprint")
              [parg (dstr "done"); parg (dstr "INFO")] (witness_state [] [0]) e' s' 0 []
              [] (witness_state [] [0]) u s1 eq_refl eq_refl E G) as (H1 & _ & H3).
  exists e', s', s1. destruct u. split; [reflexivity|]. split; [reflexivity|]. split.
  - exact (H1 eq_refl).
  - exact H3.
Defined.

(** C9: for a call to a known log function whose literals are all in the
    model of [literal_eval], with at most one recognized level literal, and
    either no level literal or no message candidate, the rewrite raises
    "Malformed logfunc call" whatever the counters say: classification
    comes before the exception-reference check. *)
Theorem C9_malformed_before_exception_check ln qn fuel sc p q f args p' f' args' s :
  mem f (logfuncs s) = true ->
  forallb (literals_ok (string_varnames s)) args = true ->
  count_loglevels (string_varnames s) args <= 1 ->
  (count_loglevels (string_varnames s) args = 0 \/
   forallb (fun a => negb (is_msg_candidate (string_varnames s) a)) args = true) ->
  change_logfunc_to_logger ln qn fuel sc (Call p (Name q f) args) (Call p' f' args') s =
  Raised (LogFuncReplaceException (at_pos p "Malformed logfunc call")).
Proof.
  intros Hf Hok Hc Hm. apply change_logfunc_raise; [exact Hf|].
  destruct (classify_result p args None None 0 s Hok Hc) as (lvl' & msg' & u' & s' & E & L & M).
  unfold get_logfunc_arguments. rewrite (bind_Ok _ _ s _ _ E). cbv iota beta.
  assert (Hw : exists s'', ((if 0 <? u'
                then warn_at_node p (Py.str_of_nat u' ++ " unrecognized argument(s) found in logfunc call")
                else ret tt) s') = Ok tt s'').
  { destruct (0 <? u'); eexists; reflexivity. }
  destruct Hw as [s'' Hw]. rewrite (bind_Ok _ _ s' _ _ Hw).
  destruct Hm as [H0|H0].
  - rewrite (L eq_refl H0). destruct msg'; reflexivity.
  - rewrite (M eq_refl H0). reflexivity.
Qed.

Lemma C9_malformed_before_exception_check_witness :
  change_logfunc_to_logger "logger" top_level_qualnames 100 GlobalScope
    (Call (3, 4) (Name (3, 4) "eprint") [parg (Name (3, 11) "e"); parg (dstr "INFO")])
    (Call (3, 4) (Name (3, 4) "eprint") [parg (Name (3, 11) "e"); parg (dstr "INFO")])
    (witness_state ["e"] [1]) =
  Raised (LogFuncReplaceException (at_pos (3, 4) "Malformed logfunc call")).
Proof.
  apply (C9_malformed_before_exception_check "logger" top_level_qualnames 100 GlobalScope (3, 4) (3, 4)
           "eprint" [parg (Name (3, 11) "e"); parg (dstr "INFO")] (3, 4) (Name (3, 4) "eprint")
           [parg (Name (3, 11) "e"); parg (dstr "INFO")] (witness_state ["e"] [1]));
    [reflexivity|reflexivity|vm_compute; lia|right; reflexivity].
Defined.

(** C9 fails as stated: inside a handler, [eprint(e, "INFO", "ERROR")] has no
    message candidate, but the second level literal stops the
    classification before the "Malformed logfunc call" check. *)
Lemma C9_counterexample :
  run exc_two_levels_module = Raised raise_at_node_arity_error /\
  raise_at_node_arity_error <> LogFuncReplaceException (at_pos (3, 4) "Malformed logfunc call").
Proof. split; [vm_compute; reflexivity|discriminate]. Qed.

(** C10: when the message is a registered string variable and its scope is
    not a key of the variable's registry, the scope walk of
    [ensure_assigned_format_is_percent] never ends (whatever the fuel), for
    every scope that is not its own parent, i.e. every scope a node has. *)
Theorem C10_scope_walk_diverges fuel sc p v m s :
  lookup_varnames v s = Some m -> in_map sc m = false -> scope_eqb sc (scope_parent sc) = false ->
  ensure_assigned_format_is_percent fuel sc (Name p v) s = OutOfFuel.
Proof.
  intros Hv Hm Hp. unfold ensure_assigned_format_is_percent, bind at 1, get. rewrite Hv.
  apply bind_OutOfFuel. apply scope_search_stuck; assumption.
Qed.

Lemma C10_scope_walk_diverges_witness :
  ensure_assigned_format_is_percent 1000 (FunctionScope 2 GlobalScope) (Name (3, 11) "msg")
    (set_varnames [("msg", [(GlobalScope, Some (1, Py.dqs ++ "{} is {}" ++ Py.dqs))])] (init_state ["eprint"])) =
  OutOfFuel.
Proof.
  apply (C10_scope_walk_diverges 1000 (FunctionScope 2 GlobalScope) (3, 11) "msg"
           [(GlobalScope, Some (1, Py.dqs ++ "{} is {}" ++ Py.dqs))]); reflexivity.
Defined.

(** The whole transform on [global_template_module], for a large fuel. *)
Lemma C10_failing_run :
  transform_module "logger" top_level_qualnames 1000 global_template_module (init_state ["eprint"]) =
  OutOfFuel.
Proof. vm_compute. reflexivity. Qed.

(* ------------------------------------------------------------------ *)
(** ** Further properties of the code *)

(** Induction on statements, with the children in lists. *)
Section StmtInd.
Variables (P : stmt -> Prop) (Q : Cst.handler -> Prop).
Hypothesis HExpr : forall e, P (Expr e).
Hypothesis HAssign : forall id ts v, P (Assign id ts v).
Hypothesis HImport : forall ns, P (Import ns).
Hypothesis HParsed : forall src, P (Parsed src).
Hypothesis HDef : forall id n body, Forall P body -> P (FunctionDef id n body).
Hypothesis HTry : forall body hs, Forall P body -> Forall Q hs -> P (Try body hs).
Hypothesis HHandler : forall ty nm body, Forall P body -> Q (ExceptHandler ty nm body).

Fixpoint stmt_ind' (s : stmt) : P s :=
  match s with
  | Expr e => HExpr e
  | Assign id ts v => HAssign id ts v
  | Import ns => HImport ns
  | Parsed src => HParsed src
  | FunctionDef id n body =>
      HDef id n body
        ((fix go (l : list stmt) : Forall P l :=
            match l with
            | [] => Forall_nil P
            | x :: r => Forall_cons x (stmt_ind' x) (go r)
            end) body)
  | Try body hs =>
      HTry body hs
        ((fix go (l : list stmt) : Forall P l :=
            match l with
            | [] => Forall_nil P
            | x :: r => Forall_cons x (stmt_ind' x) (go r)
            end) body)
        ((fix go (l : list Cst.handler) : Forall Q l :=
            match l with
            | [] => Forall_nil Q
            | x :: r => Forall_cons x (handler_ind' x) (go r)
            end) hs)
  end
with handler_ind' (h : Cst.handler) : Q h :=
  match h with
  | ExceptHandler ty nm body =>
      HHandler ty nm body
        ((fix go (l : list stmt) : Forall P l :=
            match l with
            | [] => Forall_nil P
            | x :: r => Forall_cons x (stmt_ind' x) (go r)
            end) body)
  end.

End StmtInd.

Lemma mapM_id {A} (g : A -> M A) (ok : A -> bool) : forall l s,
  (forall x, In x l -> ok x = true -> g x s = Ok x s) -> forallb ok l = true ->
  mapM g l s = Ok l s.
Proof.
  induction l as [|x r IH]; intros s Hg Hok; [reflexivity|].
  simpl in Hok. apply andb_true_iff in Hok as [Hx Hr]. simpl.
  rewrite (bind_Ok _ _ s x s) by (apply Hg; [left; reflexivity|exact Hx]).
  rewrite (bind_Ok _ _ s r s) by (apply IH; [intros y Hy; apply Hg; right; exact Hy|exact Hr]).
  reflexivity.
Qed.

Section NoLogCalls.
Variables (ln : string) (qn : fundef_ref -> list string) (fuel : nat).

(** [set_exc_context] cannot fire: no counter is open, or no name is
    handled. *)
Definition inert (s : state) : Prop :=
  excs_in_logfunc_call s = [] \/ handled_exceptions s = [].

Lemma tr_expr_no_log : forall e ins sc s,
  expr_no_log (logfuncs s) e = true -> inert s -> tr_expr ln qn fuel ins sc e s = Ok e s.
Proof.
  apply (expr_ind'
           (fun e => forall ins sc s, expr_no_log (logfuncs s) e = true -> inert s ->
                     tr_expr ln qn fuel ins sc e s = Ok e s)
           (fun a => forall ins sc s, arg_no_log (logfuncs s) a = true -> inert s ->
                     tr_arg ln qn fuel ins sc a s = Ok a s)).
  - reflexivity.
  - reflexivity.
  - intros v a IH ins sc s H Hi. simpl in H |- *. rewrite (bind_Ok _ _ s v s) by (apply IH; auto).
    reflexivity.
  - intros p f args IHf IHa ins sc s H Hi. rewrite tr_expr_call.
    simpl in H. apply andb_true_iff in H as [H Ha]. apply andb_true_iff in H as [Hn Hf].
    assert (Hargs : forall b, mapM (tr_arg ln qn fuel b sc) args s = Ok args s).
    { intro b. apply (mapM_id _ (arg_no_log (logfuncs s))); [|exact Ha].
      intros x Hx Hok. rewrite Forall_forall in IHa. apply IHa; auto. }
    destruct f as [q v| | | | | | | | |]; cbn [is_name].
    1: { rewrite (bind_Ok (enter_logfunc_context (Name q v)) _ s tt s)
           by (unfold enter_logfunc_context, bind, get; apply negb_true_iff in Hn; rewrite Hn; reflexivity).
         rewrite (bind_Ok _ _ s (Name q v) s) by reflexivity.
         rewrite (bind_Ok _ _ s args s) by apply Hargs.
         unfold change_logfunc_to_logger, bind, get. rewrite Hn. reflexivity. }
    all: rewrite (bind_Ok (ret tt) _ s tt s) by reflexivity;
         rewrite (bind_Ok _ _ s _ s) by (apply IHf; auto);
         rewrite (bind_Ok _ _ s args s) by apply Hargs; reflexivity.
  - intros es IH ins sc s H Hi. simpl in H |- *.
    rewrite (bind_Ok _ _ s es s); [reflexivity|].
    apply (mapM_id _ (expr_no_log (logfuncs s))); [|exact H].
    intros x Hx Hok. rewrite Forall_forall in IH. apply IH; auto.
  - intros v IH ins sc s H Hi. simpl in H |- *. rewrite (bind_Ok _ _ s v s) by (apply IH; auto).
    reflexivity.
  - intros t v IHt IHv ins sc s H Hi. simpl in H |- *. apply andb_true_iff in H as [Ht Hv].
    rewrite (bind_Ok _ _ s t s) by (apply IHt; auto).
    rewrite (bind_Ok _ _ s v s) by (apply IHv; auto). reflexivity.
  - intros id ds b IHds IHb ins sc s H Hi. simpl in H |- *. apply andb_true_iff in H as [Hd Hb].
    rewrite (bind_Ok _ _ s ds s).
    2: { apply (mapM_id _ (expr_no_log (logfuncs s))); [|exact Hd].
         intros x Hx Hok. rewrite Forall_forall in IHds. apply IHds; auto. }
    rewrite (bind_Ok _ _ s b s) by (apply IHb; auto). reflexivity.
  - intros id es t it rs IHes IHt IHit IHrs ins sc s H Hi. simpl in H |- *.
    apply andb_true_iff in H as [H Hr]. apply andb_true_iff in H as [H Hit].
    apply andb_true_iff in H as [He Ht].
    rewrite (bind_Ok _ _ s es s).
    2: { apply (mapM_id _ (expr_no_log (logfuncs s))); [|exact He].
         intros x Hx Hok. rewrite Forall_forall in IHes. apply IHes; auto. }
    rewrite (bind_Ok _ _ s t s) by (apply IHt; auto).
    rewrite (bind_Ok _ _ s it s) by (apply IHit; auto).
    rewrite (bind_Ok _ _ s rs s).
    2: { apply (mapM_id _ (expr_no_log (logfuncs s))); [|exact Hr].
         intros x Hx Hok. rewrite Forall_forall in IHrs. apply IHrs; auto. }
    reflexivity.
  - intros es IH ins sc s H Hi. simpl in H |- *.
    rewrite (bind_Ok _ _ s es s); [reflexivity|].
    apply (mapM_id _ (expr_no_log (logfuncs s))); [|exact H].
    intros x Hx Hok. rewrite Forall_forall in IH. apply IH; auto.
  - intros k st v IH ins sc s H Hi. simpl in H |- *.
    assert (Hs : (match v with
                  | Name _ x => if ins then set_exc_context x else ret tt
                  | _ => ret tt
                  end) s = Ok tt s).
    { destruct v as [q x| | | | | | | | |]; try reflexivity. destruct ins; [|reflexivity].
      unfold set_exc_context, bind, get.
      destruct Hi as [He|Hh]; [rewrite He; destruct (mem _ _); reflexivity|].
      rewrite Hh. reflexivity. }
    rewrite (bind_Ok _ _ s tt s Hs). rewrite (bind_Ok _ _ s v s) by (apply IH; auto).
    reflexivity.
Qed.

Lemma calm_refl s : calm s s.
Proof. repeat split. Qed.

Lemma calm_trans s1 s2 s3 : calm s1 s2 -> calm s2 s3 -> calm s1 s3.
Proof. unfold calm. intuition congruence. Qed.

Lemma mapM_calm {A} (g : A -> M A) (ok : list string -> A -> bool) : forall l s,
  (forall x, In x l -> forall s, ok (logfuncs s) x = true -> excs_in_logfunc_call s = [] ->
             exists s', g x s = Ok x s' /\ calm s s') ->
  forallb (ok (logfuncs s)) l = true -> excs_in_logfunc_call s = [] ->
  exists s', mapM g l s = Ok l s' /\ calm s s'.
Proof.
  induction l as [|x r IH]; intros s Hg Hok He; [exists s; split; [reflexivity|apply calm_refl]|].
  simpl in Hok. apply andb_true_iff in Hok as [Hx Hr].
  destruct (Hg x (or_introl eq_refl) s Hx He) as (s1 & E1 & C1).
  destruct C1 as [L1 [X1 C1']].
  destruct (IH s1) as (s2 & E2 & C2).
  - intros y Hy. apply Hg. right. exact Hy.
  - rewrite L1. exact Hr.
  - rewrite X1. exact He.
  - exists s2. simpl. rewrite (bind_Ok _ _ s x s1 E1), (bind_Ok _ _ s1 r s2 E2).
    split; [reflexivity|]. eapply calm_trans; [split; [exact L1|split; [exact X1|exact C1']]|exact C2].
Qed.

Lemma leave_assign_calm sc o u s :
  exists s', leave_assign sc o u s = Ok u s' /\ calm s s'.
Proof.
  unfold leave_assign.
  repeat (match goal with |- context [match ?x with _ => _ end] => destruct x end;
          cbv beta iota);
  (unfold bind, modify, get, ret;
   repeat (match goal with |- context [if ?b then _ else _] => destruct b end);
   eexists; (split; [reflexivity|repeat split])).
Qed.

Lemma tr_stmt_no_log : forall st sc s,
  stmt_no_log (logfuncs s) st = true -> excs_in_logfunc_call s = [] ->
  exists s', tr_stmt ln qn fuel sc st s = Ok st s' /\ calm s s'.
Proof.
  apply (stmt_ind'
           (fun st => forall sc s, stmt_no_log (logfuncs s) st = true -> excs_in_logfunc_call s = [] ->
                      exists s', tr_stmt ln qn fuel sc st s = Ok st s' /\ calm s s')
           (fun h => forall sc s, handler_no_log (logfuncs s) h = true -> excs_in_logfunc_call s = [] ->
                     exists s', tr_handler ln qn fuel sc h s = Ok h s' /\ calm s s')).
  - intros e sc s H He. exists s. simpl. rewrite (bind_Ok _ _ s e s).
    + split; [reflexivity|apply calm_refl].
    + apply tr_expr_no_log; [exact H|left; exact He].
  - intros id ts v sc s H He. simpl in H. cbn [tr_stmt]. apply andb_true_iff in H as [Ht Hv].
    rewrite (bind_Ok _ _ s ts s).
    2:{ apply (mapM_id _ (expr_no_log (logfuncs s))); [|exact Ht].
        intros x _ Hx. apply tr_expr_no_log; [exact Hx|left; exact He]. }
    rewrite (bind_Ok _ _ s v s) by (apply tr_expr_no_log; [exact Hv|left; exact He]).
    apply leave_assign_calm.
  - intros ns sc s _ _. exists s. split; [reflexivity|apply calm_refl].
  - intros src sc s _ _. exists s. split; [reflexivity|apply calm_refl].
  - intros id n body IH sc s H He. simpl in H |- *.
    set (s1 := set_function_context ((sc, id, n) :: function_context s) s).
    rewrite (bind_Ok (push_function_onto_context (sc, id, n)) _ s tt s1) by reflexivity.
    destruct (mapM_calm (tr_stmt ln qn fuel (FunctionScope id sc)) stmt_no_log body s1) as (s2 & E2 & C2).
    + intros x Hx s' Hok He'. rewrite Forall_forall in IH. apply IH; auto.
    + exact H.
    + exact He.
    + rewrite (bind_Ok _ _ s1 body s2 E2).
      exists (set_function_context (tl (function_context s2)) s2).
      rewrite (bind_Ok pop_function_context _ s2 tt _ eq_refl). split; [reflexivity|].
      destruct C2 as (L & X & F & P & W & N & G).
      repeat split; simpl; try assumption. rewrite F. reflexivity.
  - intros body hs IHb IHh sc s H He. simpl in H |- *. apply andb_true_iff in H as [Hb Hh].
    destruct (mapM_calm (tr_stmt ln qn fuel sc) stmt_no_log body s) as (s1 & E1 & C1).
    + intros x Hx s' Hok He'. rewrite Forall_forall in IHb. apply IHb; auto.
    + exact Hb.
    + exact He.
    + destruct C1 as [L1 [X1 C1']].
      destruct (mapM_calm (tr_handler ln qn fuel sc) handler_no_log hs s1) as (s2 & E2 & C2).
      * intros x Hx s' Hok He'. rewrite Forall_forall in IHh. apply IHh; auto.
      * rewrite L1. exact Hh.
      * rewrite X1. exact He.
      * exists s2. rewrite (bind_Ok _ _ s body s1 E1), (bind_Ok _ _ s1 hs s2 E2).
        split; [reflexivity|]. eapply calm_trans; [split; [exact L1|split; [exact X1|exact C1']]|exact C2].
  - intros ty nm body IH sc s H He. simpl in H |- *. apply andb_true_iff in H as [Ht Hb].
    set (s1 := match nm with
               | Some n => set_handled (set_add n (handled_exceptions s)) s
               | None => s
               end).
    assert (E1 : (match nm with Some n => push_named_exception n | None => ret tt end) s = Ok tt s1)
      by (destruct nm; reflexivity).
    assert (C1 : calm s s1) by (destruct nm; repeat split).
    rewrite (bind_Ok _ _ s tt s1 E1).
    destruct C1 as [L1 [X1 C1']].
    assert (E2 : (match ty with
                  | Some t => t' <- tr_expr ln qn fuel false sc t ;; ret (Some t')
                  | None => ret None
                  end) s1 = Ok ty s1).
    { destruct ty as [t|]; [|reflexivity].
      rewrite (bind_Ok _ _ s1 t s1); [reflexivity|].
      apply tr_expr_no_log; [rewrite L1; exact Ht|left; rewrite X1; exact He]. }
    rewrite (bind_Ok _ _ s1 ty s1 E2).
    destruct (mapM_calm (tr_stmt ln qn fuel sc) stmt_no_log body s1) as (s2 & E3 & C3).
    + intros x Hx s' Hok He'. rewrite Forall_forall in IH. apply IH; auto.
    + rewrite L1. exact Hb.
    + rewrite X1. exact He.
    + rewrite (bind_Ok _ _ s1 body s2 E3).
      set (s3 := match nm with
                 | Some n => set_handled (set_discard n (handled_exceptions s2)) s2
                 | None => s2
                 end).
      assert (E4 : (match nm with Some n => pop_named_exception n | None => ret tt end) s2 = Ok tt s3)
        by (destruct nm; reflexivity).
      rewrite (bind_Ok _ _ s2 tt s3 E4). exists s3. split; [reflexivity|].
      eapply calm_trans; [split; [exact L1|split; [exact X1|exact C1']]|].
      eapply calm_trans; [exact C3|]. unfold s3. destruct nm; repeat split.
Qed.

End NoLogCalls.




Lemma tr_arg_no_log ln qn fuel a ins sc s :
  arg_no_log (logfuncs s) a = true -> inert s -> tr_arg ln qn fuel ins sc a s = Ok a s.
Proof.
  destruct a as [k st v]. intros H Hi. simpl in H |- *.
  assert (Hs : (match v with
                | Name _ x => if ins then set_exc_context x else ret tt
                | _ => ret tt
                end) s = Ok tt s).
  { destruct v as [q x| | | | | | | | |]; try reflexivity. destruct ins; [|reflexivity].
    unfold set_exc_context, bind, get.
    destruct Hi as [He|Hh]; [rewrite He; destruct (mem _ _); reflexivity|].
    rewrite Hh. reflexivity. }
  rewrite (bind_Ok _ _ s tt s Hs). rewrite (bind_Ok _ _ s v s) by (apply tr_expr_no_log; auto).
  reflexivity.
Qed.

Lemma tr_arg_eq ln qn fuel ins sc k st v :
  tr_arg ln qn fuel ins sc (Arg k st v) =
  ((match v with
    | Name _ x => if ins then set_exc_context x else ret tt
    | _ => ret tt
    end) ;;
   v' <- tr_expr ln qn fuel ins sc v ;;
   ret (Arg k st v')).
Proof. reflexivity. Qed.

Lemma scope_search_found n p sc m s : in_map sc m = true -> scope_search (S n) p sc m s = Ok sc s.
Proof. intro H. simpl. rewrite H. reflexivity. Qed.

Lemma bind_assoc {A B C} (m : M A) (k1 : A -> M B) (k2 : B -> M C) s :
  bind (bind m k1) k2 s = bind m (fun x => bind (k1 x) k2) s.
Proof. unfold bind. destruct (m s); reflexivity. Qed.

Lemma classify_var_template p k st p2 q2 v fa k' st' lsrc lvl s :
  vn_mem v (string_varnames s) = true -> String.eqb (Py.lower v) "file" = false ->
  Py.literal_eval lsrc = Py.LStr lvl -> mem lvl LOGLEVELS = true ->
  classify_args p [Arg k st (Call p2 (Attribute (Name q2 v) "format") fa);
                   Arg k' st' (SimpleString lsrc)] None None 0 s =
  Ok (Some lvl, Some (mkCSTString (Some (Name q2 v)) None fa), 0) s.
Proof.
  intros Hv Hf Hlsrc Hlvl. cbn [classify_args].
  rewrite (bind_Ok _ _ s (Some (mkCSTString (Some (Name q2 v)) None fa)) s)
    by (apply gsc_ok; simpl; rewrite Hv; reflexivity).
  unfold literal_is_loglevel at 1. cbn [cs_literal].
  unfold name_is_file at 1. cbn [cs_name]. rewrite Hf.
  rewrite (bind_Ok _ _ s (Some (mkCSTString None (Some lvl) [])) s)
    by (apply gsc_ok; simpl; rewrite Hlsrc; reflexivity).
  unfold literal_is_loglevel. cbn [cs_literal]. rewrite Hlvl. reflexivity.
Qed.

Lemma change_var_call ln qn fuel sc p q f k st p2 q2 v fa k' st' lsrc lvl r p' f' args' s m :
  mem f (logfuncs s) = true -> lookup_varnames v s = Some m -> in_map sc m = true ->
  String.eqb (Py.lower v) "file" = false ->
  Py.literal_eval lsrc = Py.LStr lvl -> mem lvl LOGLEVELS = true ->
  excs_in_logfunc_call s = 0 :: r -> fa <> [] -> 0 < fuel ->
  change_logfunc_to_logger ln qn fuel sc
    (Call p (Name q f) [Arg k st (Call p2 (Attribute (Name q2 v) "format") fa);
                        Arg k' st' (SimpleString lsrc)])
    (Call p' f' args') s =
  Ok (logger_call p' lvl (Name q2 v) fa)
     (let s2 := set_excs r s in
      if existsb (assign_ref_eqb (map_get sc m)) (postprocess s2) then s2
      else set_postprocess (postprocess s2 ++ [map_get sc m]) s2).
Proof.
  intros Hf Hlk Hin Hfile Hlsrc Hlvl Hx Hfa Hfuel.
  unfold change_logfunc_to_logger. unfold bind at 1. unfold get at 1.
  rewrite Hf. cbn [negb].
  assert (Hvn : vn_mem v (string_varnames s) = true).
  { rewrite <- in_varnames_vn. unfold in_varnames. rewrite Hlk. reflexivity. }
  assert (Hg : get_logfunc_arguments p
                 [Arg k st (Call p2 (Attribute (Name q2 v) "format") fa);
                  Arg k' st' (SimpleString lsrc)] s = Ok (lvl, mkCSTString (Some (Name q2 v)) None fa) s).
  { unfold get_logfunc_arguments.
    rewrite (bind_Ok _ _ s _ s (classify_var_template p k st p2 q2 v fa k' st' lsrc lvl s Hvn Hfile Hlsrc Hlvl)).
    reflexivity. }
  rewrite (bind_Ok _ _ s _ s Hg). cbv iota beta.
  assert (Hp : pop_excs s = Ok 0 (set_excs r s)).
  { unfold pop_excs, bind, get. rewrite Hx. reflexivity. }
  rewrite (bind_Ok _ _ s _ _ Hp). cbn [Nat.ltb Nat.leb].
  unfold convert_message. cbn [cs_format_args cs_name cs_literal].
  destruct fa as [|a fa]; [congruence|].
  destruct fuel as [|n]; [lia|].
  assert (He : ensure_assigned_format_is_percent (S n) sc (Name q2 v) (set_excs r s) =
    Ok tt (let s2 := set_excs r s in
           if existsb (assign_ref_eqb (map_get sc m)) (postprocess s2) then s2
           else set_postprocess (postprocess s2 ++ [map_get sc m]) s2)).
  { unfold ensure_assigned_format_is_percent. rewrite (bind_Ok get _ _ _ _ eq_refl).
    replace (lookup_varnames v (set_excs r s)) with (Some m) by (rewrite <- Hlk; reflexivity).
    rewrite (bind_Ok _ _ _ _ _ (scope_search_found n q2 sc m (set_excs r s) Hin)).
    reflexivity. }
  rewrite bind_assoc, (bind_Ok _ _ _ _ _ He). reflexivity.
Qed.

Lemma mapM_cons_Ok {A B} (g : A -> M B) x r s y s' :
  g x s = Ok y s' -> mapM g (x :: r) s = bind (mapM g r) (fun r' => ret (y :: r')) s'.
Proof.
  intro H.
  assert (E : mapM g (x :: r) s = bind (g x) (fun y => bind (mapM g r) (fun r' => ret (y :: r'))) s)
    by reflexivity.
  rewrite E.
  rewrite (bind_Ok _ _ _ _ _ H). reflexivity.
Qed.

Lemma mapM_cons_Ok' {A B} (g : A -> M B) x r s y s' r' s'' :
  g x s = Ok y s' -> mapM g r s' = Ok r' s'' -> mapM g (x :: r) s = Ok (y :: r') s''.
Proof. intros H1 H2. rewrite (mapM_cons_Ok _ _ _ _ _ _ H1), (bind_Ok _ _ _ _ _ H2). reflexivity. Qed.

(** The log call of [template_var_module], outside any handler, in a
    state where [v] has a binding in the global scope. *)
Lemma var_call_tr ln qn fuel p q' f k st p2 q2 v fa k' st' lsrc lvl s m :
  mem f (logfuncs s) = true ->
  excs_in_logfunc_call s = [] -> handled_exceptions s = [] ->
  forallb (arg_no_log (logfuncs s)) fa = true -> fa <> [] ->
  Py.literal_eval lsrc = Py.LStr lvl -> mem lvl LOGLEVELS = true ->
  String.eqb (Py.lower v) "file" = false ->
  lookup_varnames v s = Some m -> in_map GlobalScope m = true -> 0 < fuel ->
  tr_expr ln qn fuel false GlobalScope
    (Call p (Name q' f) [Arg k st (Call p2 (Attribute (Name q2 v) "format") fa);
                         Arg k' st' (SimpleString lsrc)]) s =
  Ok (logger_call p lvl (Name q2 v) fa)
     (let s2 := set_needed_imports (app (needed_imports s) ["logging"]) s in
      if existsb (assign_ref_eqb (map_get GlobalScope m)) (postprocess s2) then s2
      else set_postprocess (postprocess s2 ++ [map_get GlobalScope m]) s2).
Proof.
  intros Hf He Hh Hfa Hne Hl Hlvl Hv Hlk Hin Hfuel.
  destruct s as [lf ex fc hd vn pp w ni gs]. simpl in He, Hh, Hf, Hfa. subst ex hd.
  set (s1 := mkState lf [0] fc [] vn pp w (app ni ["logging"]) gs).
  rewrite tr_expr_call. cbn [is_name orb].
  rewrite (bind_Ok (enter_logfunc_context (Name q' f)) _ _ tt s1)
    by (unfold enter_logfunc_context, bind, get; simpl; rewrite Hf; reflexivity).
  rewrite (bind_Ok _ _ s1 (Name q' f) s1) by reflexivity.
  assert (Hfa' : mapM (tr_arg ln qn fuel true GlobalScope) fa s1 = Ok fa s1).
  { apply (mapM_id _ (arg_no_log lf)); [|exact Hfa].
    intros x _ Hx. apply tr_arg_no_log; [exact Hx|right; reflexivity]. }
  assert (Ha1 : tr_arg ln qn fuel true GlobalScope
                  (Arg k st (Call p2 (Attribute (Name q2 v) "format") fa)) s1 =
                Ok (Arg k st (Call p2 (Attribute (Name q2 v) "format") fa)) s1).
  { rewrite tr_arg_eq. cbv beta iota. rewrite (bind_Ok (ret tt) _ s1 tt s1) by reflexivity.
    enough (Hi : tr_expr ln qn fuel true GlobalScope (Call p2 (Attribute (Name q2 v) "format") fa) s1 =
                 Ok (Call p2 (Attribute (Name q2 v) "format") fa) s1)
      by (rewrite (bind_Ok _ _ _ _ _ Hi); reflexivity).
    rewrite tr_expr_call. cbn [is_name orb]. cbv beta iota.
    rewrite (bind_Ok (ret tt) _ s1 tt s1) by reflexivity.
    rewrite (bind_Ok _ _ s1 (Attribute (Name q2 v) "format") s1) by reflexivity.
    rewrite (bind_Ok _ _ s1 fa s1 Hfa'). reflexivity. }
  rewrite (bind_Ok _ _ s1 _ s1)
    by (rewrite (mapM_cons_Ok _ _ _ _ _ _ Ha1); reflexivity).
  rewrite (change_var_call ln qn fuel GlobalScope p q' f k st p2 q2 v fa k' st' lsrc lvl []
             p (Name q' f) _ s1 m); try assumption; try reflexivity.
Qed.

(** Extra: a string variable assigned a literal in the module scope and
    used as [v.format(...)] in a log call: the log call gets the variable
    as its format, and the assignment is rewritten in place to the
    %-style literal; the number of [{}] fields is not compared with the
    number of arguments and no warning is issued. *)
Theorem template_var_rewritten_in_place ln qn fuel id q v src t p q' f k st p2 q2 fa k' st' lsrc lvl s :
  in_global_scope ln (template_var_module id q v (SimpleString src) p q' f k st p2 q2 fa k' st' lsrc) = false ->
  mem f (logfuncs s) = true ->
  excs_in_logfunc_call s = [] -> handled_exceptions s = [] ->
  string_varnames s = [] -> postprocess s = [] ->
  forallb (arg_no_log (logfuncs s)) fa = true -> fa <> [] ->
  Py.literal_eval src = Py.LStr t ->
  Py.literal_eval lsrc = Py.LStr lvl -> mem lvl LOGLEVELS = true ->
  String.eqb (Py.lower v) "file" = false -> 0 < fuel ->
  exists s',
    transform_module ln qn fuel (template_var_module id q v (SimpleString src) p q' f k st p2 q2 fa k' st' lsrc) s =
    Ok [Assign id [Name q v] (SimpleString (Py.repr (Py.replace_braces t)));
        Expr (logger_call p lvl (Name q2 v) fa)] s' /\
    warnings s' = warnings s.
Proof.
  intros Hln Hf He Hh Hvn Hp Hfa Hne Hsrc Hl Hlvl Hv Hfuel.
  destruct s as [lf ex fc hd vn pp w ni gs]. simpl in *. subst ex hd vn pp.
  unfold transform_module.
  set (s1 := mkState lf [] fc [] [] [] w ni (app gs [ln ++ " = logging.getLogger(__name__)"])).
  rewrite (bind_Ok _ _ _ tt s1)
    by (unfold check_global_scope_for_logger; rewrite Hln; reflexivity).
  set (m := [(GlobalScope, Some (id, src))]).
  set (s2 := set_varnames [(v, m)] s1).
  assert (Ha : tr_stmt ln qn fuel GlobalScope (Assign id [Name q v] (SimpleString src)) s1 =
               Ok (Assign id [Name q v] (SimpleString src)) s2) by reflexivity.
  assert (Hc : tr_expr ln qn fuel false GlobalScope
                 (Call p (Name q' f) [Arg k st (Call p2 (Attribute (Name q2 v) "format") fa);
                                      Arg k' st' (SimpleString lsrc)]) s2 =
               Ok (logger_call p lvl (Name q2 v) fa)
                  (set_postprocess [Some (id, src)] (set_needed_imports (app ni ["logging"]) s2))).
  { rewrite (var_call_tr ln qn fuel p q' f k st p2 q2 v fa k' st' lsrc lvl s2 m); try assumption;
      try reflexivity.
    unfold lookup_varnames, s2. simpl. rewrite String.eqb_refl. reflexivity. }
  assert (Hx : tr_stmt ln qn fuel GlobalScope
                 (Expr (Call p (Name q' f) [Arg k st (Call p2 (Attribute (Name q2 v) "format") fa);
                                            Arg k' st' (SimpleString lsrc)])) s2 =
               Ok (Expr (logger_call p lvl (Name q2 v) fa))
                  (set_postprocess [Some (id, src)] (set_needed_imports (app ni ["logging"]) s2)))
    by (cbn [tr_stmt]; rewrite (bind_Ok _ _ _ _ _ Hc); reflexivity).
  unfold tr_stmts, template_var_module.
  rewrite (bind_Ok _ _ s1 _ _ (mapM_cons_Ok' _ _ _ _ _ _ _ _ Ha
                                (mapM_cons_Ok' _ _ [] _ _ _ [] _ Hx eq_refl))).
  unfold postprocess_assignment_nodes. rewrite (bind_Ok get _ _ _ _ eq_refl). simpl postprocess.
  cbn [postprocess_nodes]. unfold literal_eval_M. rewrite Hsrc.
  rewrite (bind_Ok (ret t) _ _ _ _ eq_refl). simpl. rewrite Nat.eqb_refl.
  eexists. split; reflexivity.
Qed.

(** Extra: a string variable assigned from [<literal>.format(...)] in the
    module scope and then used as [v.format(...)] in a log call makes the
    rewriter fail: the assignment is recorded without a node, and
    postprocessing it raises [AttributeError]. *)
Theorem format_assigned_var_crashes ln qn fuel id q v p0 src fa0 p q' f k st p2 q2 fa k' st' lsrc lvl s :
  in_global_scope ln
    (template_var_module id q v (Call p0 (Attribute (SimpleString src) "format") fa0)
       p q' f k st p2 q2 fa k' st' lsrc) = false ->
  mem f (logfuncs s) = true ->
  excs_in_logfunc_call s = [] -> handled_exceptions s = [] ->
  string_varnames s = [] -> postprocess s = [] ->
  forallb (arg_no_log (logfuncs s)) fa0 = true ->
  forallb (arg_no_log (logfuncs s)) fa = true -> fa <> [] ->
  Py.literal_eval lsrc = Py.LStr lvl -> mem lvl LOGLEVELS = true ->
  String.eqb (Py.lower v) "file" = false -> 0 < fuel ->
  transform_module ln qn fuel
    (template_var_module id q v (Call p0 (Attribute (SimpleString src) "format") fa0)
       p q' f k st p2 q2 fa k' st' lsrc) s =
  Raised (AttributeError "'NoneType' object has no attribute 'value'").
Proof.
  intros Hln Hf He Hh Hvn Hp Hfa0 Hfa Hne Hl Hlvl Hv Hfuel.
  destruct s as [lf ex fc hd vn pp w ni gs]. simpl in He, Hh, Hvn, Hp, Hf, Hfa0, Hfa. subst ex hd vn pp.
  unfold transform_module.
  set (s1 := mkState lf [] fc [] [] [] w ni (app gs [ln ++ " = logging.getLogger(__name__)"])).
  rewrite (bind_Ok _ _ _ tt s1)
    by (unfold check_global_scope_for_logger; rewrite Hln; reflexivity).
  set (a := Call p0 (Attribute (SimpleString src) "format") fa0).
  set (m := [(GlobalScope, @None (nat * string))]).
  set (s2 := set_varnames [(v, m)] s1).
  assert (Ha0 : tr_expr ln qn fuel false GlobalScope a s1 = Ok a s1).
  { apply tr_expr_no_log; [|left; reflexivity].
    exact Hfa0. }
  assert (Ha : tr_stmt ln qn fuel GlobalScope (Assign id [Name q v] a) s1 =
               Ok (Assign id [Name q v] a) s2).
  { cbn [tr_stmt]. rewrite (bind_Ok _ _ s1 [Name q v] s1) by reflexivity.
    rewrite (bind_Ok _ _ _ _ _ Ha0). reflexivity. }
  assert (Hc : tr_expr ln qn fuel false GlobalScope
                 (Call p (Name q' f) [Arg k st (Call p2 (Attribute (Name q2 v) "format") fa);
                                      Arg k' st' (SimpleString lsrc)]) s2 =
               Ok (logger_call p lvl (Name q2 v) fa)
                  (set_postprocess [None] (set_needed_imports (app ni ["logging"]) s2))).
  { rewrite (var_call_tr ln qn fuel p q' f k st p2 q2 v fa k' st' lsrc lvl s2 m); try assumption;
      try reflexivity.
    unfold lookup_varnames, s2. simpl. rewrite String.eqb_refl. reflexivity. }
  assert (Hx : tr_stmt ln qn fuel GlobalScope
                 (Expr (Call p (Name q' f) [Arg k st (Call p2 (Attribute (Name q2 v) "format") fa);
                                            Arg k' st' (SimpleString lsrc)])) s2 =
               Ok (Expr (logger_call p lvl (Name q2 v) fa))
                  (set_postprocess [None] (set_needed_imports (app ni ["logging"]) s2)))
    by (cbn [tr_stmt]; rewrite (bind_Ok _ _ _ _ _ Hc); reflexivity).
  unfold tr_stmts, template_var_module.
  rewrite (bind_Ok _ _ s1 _ _ (mapM_cons_Ok' _ _ _ _ _ _ _ _ Ha
                                (mapM_cons_Ok' _ _ [] _ _ _ [] _ Hx eq_refl))).
  reflexivity.
Qed.

Lemma template_var_rewritten_in_place_witness :
  exists s',
    transform_module "logger" top_level_qualnames 100
      (template_var_module 1 (1, 0) "msg" (SimpleString "'{} and {}'") (2, 0) (2, 0) "eprint" None NoStar
         (2, 7) (2, 7) [parg (Name (2, 18) "n")] None NoStar "'INFO'") (init_state ["eprint"]) =
    Ok [Assign 1 [Name (1, 0) "msg"] (SimpleString "'%s and %s'");
        Expr (Call (2, 0) (Attribute (Name nopos "logger") "info")
                [Arg None NoStar (Name (2, 7) "msg"); parg (Name (2, 18) "n")])] s'.
Proof.
  destruct (template_var_rewritten_in_place "logger" top_level_qualnames 100 1 (1, 0) "msg"
              "'{} and {}'" "{} and {}" (2, 0) (2, 0) "eprint" None NoStar (2, 7) (2, 7)
              [parg (Name (2, 18) "n")] None NoStar "'INFO'" "INFO" (init_state ["eprint"]))
    as (s' & H & _); try reflexivity; try discriminate; try lia.
  exists s'. exact H.
Defined.

Lemma format_assigned_var_crashes_witness :
  transform_module "logger" top_level_qualnames 100
    (template_var_module 1 (1, 0) "msg" (Call (1, 6) (Attribute (dstr "{} and {}") "format")
                                           [parg (Name (1, 24) "a"); parg (Name (1, 27) "b")])
       (2, 0) (2, 0) "eprint" None NoStar (2, 7) (2, 7) [parg (Name (2, 18) "n")] None NoStar
       "'INFO'") (init_state ["eprint"]) =
  Raised (AttributeError "'NoneType' object has no attribute 'value'").
Proof.
  apply (format_assigned_var_crashes _ _ _ _ _ _ _ _ _ _ _ _ _ _ _ _ _ _ _ _ "INFO"); try reflexivity; try discriminate; lia.
Defined.

Lemma classify_first p : forall args lvl msg u s,
  forallb (literals_ok (string_varnames s)) args = true ->
  (match lvl with Some _ => 1 | None => 0 end) + count_loglevels (string_varnames s) args <= 1 ->
  exists u' s', classify_args p args lvl msg u s =
    Ok (match lvl with Some l => Some l | None => first_level (string_varnames s) args end,
        match msg with Some c => Some c | None => first_candidate (string_varnames s) args end,
        u') s'.
Proof.
  induction args as [|[k st v] r IH]; intros lvl msg u s Hok Hc.
  - simpl. exists u, s. destruct lvl, msg; reflexivity.
  - simpl in Hok. apply andb_true_iff in Hok as [Ha Hr].
    rewrite count_loglevels_cons in Hc.
    unfold literals_ok, is_loglevel_arg in *. simpl arg_value in *.
    cbn [classify_args first_level first_candidate arg_value].
    destruct (string_components (string_varnames s) v) as [oc|] eqn:Hsc; [|discriminate].
    rewrite (bind_Ok _ _ s oc s) by (apply gsc_ok; exact Hsc).
    destruct oc as [c|].
    + destruct (literal_is_loglevel c) eqn:Hl; cbn [negb andb].
      * destruct lvl; [simpl in Hc; lia|].
        destruct (literal_is_loglevel_some c Hl) as [l Hcl]. rewrite Hcl.
        destruct (IH (Some l) msg u s Hr) as (u' & s' & E); [lia|].
        exists u', s'. exact E.
      * destruct (name_is_file c) eqn:Hn; cbn [negb].
        -- rewrite (bind_Ok (warn_at_node p _) _ s tt _ eq_refl).
           destruct (IH lvl msg u (set_warnings (warnings s ++ [at_pos p "File argument in logfunc call"]) s) Hr)
             as (u' & s' & E); [simpl; lia|].
           exists u', s'. exact E.
        -- destruct msg as [m0|].
           ++ destruct (IH lvl (Some m0) (S u) s Hr) as (u' & s' & E); [lia|].
              exists u', s'. exact E.
           ++ destruct (IH lvl (Some c) u s Hr) as (u' & s' & E); [lia|].
              exists u', s'. exact E.
    + rewrite (bind_Ok get _ s s s eq_refl).
      assert (Hrec : forall u0, exists u' s', classify_args p r lvl msg u0 s =
        Ok (match lvl with Some l => Some l | None => first_level (string_varnames s) r end,
            match msg with Some c => Some c | None => first_candidate (string_varnames s) r end,
            u') s').
      { intro u0. apply IH; [exact Hr|lia]. }
      destruct v; try destruct (mem _ _); apply Hrec.
Qed.

(** Extra: when every string literal among the arguments is valid and at
    most one argument is a log-level literal, [get_logfunc_arguments]
    succeeds exactly when there is a log-level literal and a message
    candidate, and it returns the level and the first message candidate. *)
Theorem logfunc_arguments_first p args s l m :
  forallb (literals_ok (string_varnames s)) args = true ->
  count_loglevels (string_varnames s) args <= 1 ->
  (exists s', get_logfunc_arguments p args s = Ok (l, m) s') <->
  first_level (string_varnames s) args = Some l /\ first_candidate (string_varnames s) args = Some m.
Proof.
  intros Hok Hc.
  destruct (classify_first p args None None 0 s Hok Hc) as (u & s1 & E).
  unfold get_logfunc_arguments. rewrite (bind_Ok _ _ _ _ _ E). cbv beta iota.
  assert (Hw : exists s2, (if 0 <? u
                then warn_at_node p (Py.str_of_nat u ++ " unrecognized argument(s) found in logfunc call")
                else ret tt) s1 = Ok tt s2).
  { destruct (0 <? u); eexists; reflexivity. }
  destruct Hw as (s2 & Hw). rewrite (bind_Ok _ _ _ _ _ Hw).
  destruct (first_candidate _ args) as [c|], (first_level _ args) as [l'|]; cbn.
  - split.
    + intros (s' & H). injection H as -> ->. split; reflexivity.
    + intros (H1 & H2). injection H1 as ->. injection H2 as ->. eauto.
  - split; [intros (s' & H); discriminate|intros (H1 & _); discriminate].
  - split; [intros (s' & H); discriminate|intros (_ & H2); discriminate].
  - split; [intros (s' & H); discriminate|intros (H1 & _); discriminate].
Qed.

Lemma logfunc_arguments_first_witness :
  exists s', get_logfunc_arguments (1, 0)
    [parg (dstr "hello"); parg (Name (1, 20) "e"); parg (dstr "ERROR")] (init_state ["eprint"]) =
    Ok ("ERROR", mkCSTString None (Some "hello") []) s'.
Proof.
  apply (proj2 (logfunc_arguments_first (1, 0)
                  [parg (dstr "hello"); parg (Name (1, 20) "e"); parg (dstr "ERROR")]
                  (init_state ["eprint"]) "ERROR" (mkCSTString None (Some "hello") [])
                  eq_refl ltac:(vm_compute; lia))).
  split; reflexivity.
Defined.

Lemma str_app_assoc : forall s1 s2 s3 : string, s1 ++ (s2 ++ s3) = (s1 ++ s2) ++ s3.
Proof. induction s1 as [|c s1 IH]; intros s2 s3; [reflexivity|simpl; rewrite IH; reflexivity]. Qed.

Lemma ascii_in_app a : forall s1 s2,
  Py.ascii_in a (s1 ++ s2) = Py.ascii_in a s1 || Py.ascii_in a s2.
Proof.
  unfold Py.ascii_in. induction s1 as [|c s1 IH]; intro s2; [reflexivity|].
  simpl. rewrite IH. apply orb_assoc.
Qed.

Lemma repr_char_no_nul q c :
  q = "'"%char \/ q = Py.dq -> Py.ascii_in (ascii_of_nat 0) (Py.repr_char q c) = false.
Proof.
  intros Hq. destruct Hq as [-> | ->];
    destruct c as [[] [] [] [] [] [] [] []]; reflexivity.
Qed.

Lemma repr_char_translate q c t :
  q = "'"%char \/ q = Py.dq ->
  Py.translate_newlines (Py.repr_char q c ++ t) = Py.repr_char q c ++ Py.translate_newlines t.
Proof.
  intros Hq. destruct Hq as [-> | ->];
    destruct c as [[] [] [] [] [] [] [] []]; reflexivity.
Qed.

Lemma repr_char_scan q c t :
  q = "'"%char \/ q = Py.dq ->
  Py.scan_single q (Py.repr_char q c ++ t) = scons_s (Py.repr_char q c) (Py.scan_single q t).
Proof.
  intros Hq. destruct Hq as [-> | ->];
    destruct c as [[] [] [] [] [] [] [] []]; reflexivity.
Qed.

Lemma repr_char_unescape q c t :
  q = "'"%char \/ q = Py.dq ->
  Py.unescape_m Py.UText (Py.repr_char q c ++ t) = Py.lcons c (Py.unescape_m Py.UText t).
Proof.
  intros Hq. destruct Hq as [-> | ->];
    destruct c as [[] [] [] [] [] [] [] []]; reflexivity.
Qed.

Lemma repr_char_head q c :
  q = "'"%char \/ q = Py.dq -> exists h t, Py.repr_char q c = String h t /\ h <> q.
Proof.
  intros Hq. destruct Hq as [-> | ->];
    destruct c as [[] [] [] [] [] [] [] []]; eexists; eexists; split; try reflexivity; discriminate.
Qed.

Lemma scons_s_app : forall s1 s2 o, scons_s (s1 ++ s2) o = scons_s s1 (scons_s s2 o).
Proof. induction s1 as [|c s1 IH]; intros s2 o; [reflexivity|simpl; rewrite IH; reflexivity]. Qed.

Lemma scons_s_some : forall s b r, scons_s s (Some (b, r)) = Some (s ++ b, r).
Proof. induction s as [|c s IH]; intros b r; [reflexivity|simpl; rewrite IH; reflexivity]. Qed.

Section ReprBody.
Variable q : ascii.
Hypothesis Hq : q = "'"%char \/ q = Py.dq.

Lemma repr_body_no_nul : forall x, Py.ascii_in (ascii_of_nat 0) (Py.repr_body q x) = false.
Proof.
  induction x as [|c x IH]; [reflexivity|].
  simpl. rewrite ascii_in_app, repr_char_no_nul, IH by exact Hq. reflexivity.
Qed.

Lemma repr_body_translate : forall x,
  Py.translate_newlines (Py.repr_body q x ++ String q EmptyString) =
  Py.repr_body q x ++ String q EmptyString.
Proof.
  induction x as [|c x IH].
  - destruct Hq as [-> | ->]; reflexivity.
  - simpl. rewrite <- str_app_assoc, repr_char_translate, IH by exact Hq. reflexivity.
Qed.

Lemma repr_body_scan : forall x,
  Py.scan_single q (Py.repr_body q x ++ String q EmptyString) = Some (Py.repr_body q x, EmptyString).
Proof.
  induction x as [|c x IH].
  - destruct Hq as [-> | ->]; reflexivity.
  - simpl. rewrite <- str_app_assoc, repr_char_scan, IH, scons_s_some by exact Hq.
    reflexivity.
Qed.

Lemma repr_body_unescape : forall x, Py.unescape_m Py.UText (Py.repr_body q x) = Py.LStr x.
Proof.
  induction x as [|c x IH]; [reflexivity|].
  simpl. rewrite repr_char_unescape, IH by exact Hq. reflexivity.
Qed.

Lemma repr_body_not_triple x :
  match Py.repr_body q x ++ String q EmptyString with
  | String a (String b r2) =>
      if Ascii.eqb a q && Ascii.eqb b q then Py.scan_triple q r2
      else Py.scan_single q (Py.repr_body q x ++ String q EmptyString)
  | _ => Py.scan_single q (Py.repr_body q x ++ String q EmptyString)
  end = Py.scan_single q (Py.repr_body q x ++ String q EmptyString).
Proof.
  destruct x as [|c x]; [reflexivity|].
  destruct (repr_char_head q c Hq) as (h & t & E & Hh).
  cbn [Py.repr_body]. rewrite <- str_app_assoc, E. cbn [append].
  destruct (t ++ (Py.repr_body q x ++ String q EmptyString)) as [|b r2]; [reflexivity|].
  rewrite (proj2 (Ascii.eqb_neq h q) Hh). reflexivity.
Qed.

End ReprBody.

(** Extra: [repr] of any [str] (code points 0..255) is a literal that
    [ast.literal_eval] maps back to the same text: no NUL, CR or raw
    newline is written, the opening quote is not tripled, and every escape
    [repr] writes ([\\], the quote, [\t], [\n], [\r], [\xHH]) decodes to
    the character it stands for. *)
Theorem literal_eval_repr x : Py.literal_eval (Py.repr x) = Py.LStr x.
Proof.
  unfold Py.repr.
  set (q := if Py.ascii_in "'" x && negb (Py.ascii_in Py.dq x) then Py.dq else "'"%char).
  assert (Hq : q = "'"%char \/ q = Py.dq) by (unfold q; destruct (_ && _); auto).
  clearbody q.
  assert (Hn : Py.ascii_in (ascii_of_nat 0) (String q (Py.repr_body q x ++ String q EmptyString)) = false).
  { change (String q (Py.repr_body q x ++ String q EmptyString))
      with (String q EmptyString ++ (Py.repr_body q x ++ String q EmptyString)).
    rewrite !ascii_in_app, repr_body_no_nul by exact Hq.
    destruct Hq as [-> | ->]; reflexivity. }
  assert (Hs : forall s, Py.split_prefix (Py.translate_newlines (Py.lstrip_blanks (String q s))) =
                    (EmptyString, String q (Py.translate_newlines s))).
  { intro s. destruct Hq as [-> | ->]; reflexivity. }
  unfold Py.literal_eval. rewrite Hn, Hs, repr_body_translate by exact Hq.
  change (Py.prefix_of EmptyString) with (Some Py.PStr). cbv beta iota zeta.
  rewrite repr_body_not_triple, repr_body_scan by exact Hq.
  apply repr_body_unescape; exact Hq.
Qed.

Lemma classify_plain p k st src t k' st' lsrc lvl s :
  Py.literal_eval src = Py.LStr t -> mem t LOGLEVELS = false ->
  Py.literal_eval lsrc = Py.LStr lvl -> mem lvl LOGLEVELS = true ->
  classify_args p [Arg k st (SimpleString src); Arg k' st' (SimpleString lsrc)] None None 0 s =
  Ok (Some lvl, Some (mkCSTString None (Some t) []), 0) s.
Proof.
  intros Hsrc Ht Hlsrc Hlvl. cbn [classify_args].
  rewrite (bind_Ok _ _ s (Some (mkCSTString None (Some t) [])) s)
    by (apply gsc_ok; simpl; rewrite Hsrc; reflexivity).
  unfold literal_is_loglevel at 1. cbn [cs_literal]. rewrite Ht.
  unfold name_is_file at 1. cbn [cs_name].
  rewrite (bind_Ok _ _ s (Some (mkCSTString None (Some lvl) [])) s)
    by (apply gsc_ok; simpl; rewrite Hlsrc; reflexivity).
  unfold literal_is_loglevel. cbn [cs_literal]. rewrite Hlvl. reflexivity.
Qed.

(** Extra: a log call with a literal message and a level literal becomes
    [logger.<level>(repr(message))]: the message text is written back as
    [repr] writes it, with no format arguments; only the [logging] import
    is requested, whatever handler or call it is in. *)
Theorem plain_message_call ln qn fuel ins sc p q f k st src t k' st' lsrc lvl s :
  mem f (logfuncs s) = true ->
  Py.literal_eval src = Py.LStr t -> mem t LOGLEVELS = false ->
  Py.literal_eval lsrc = Py.LStr lvl -> mem lvl LOGLEVELS = true ->
  tr_expr ln qn fuel ins sc
    (Call p (Name q f) [Arg k st (SimpleString src); Arg k' st' (SimpleString lsrc)]) s =
  Ok (logger_call p lvl (SimpleString (Py.repr t)) [])
     (set_needed_imports (app (needed_imports s) ["logging"]) s).
Proof.
  intros Hf Hsrc Ht Hlsrc Hlvl.
  destruct s as [lf ex fc hd vn pp w ni gs]. simpl in Hf.
  set (s1 := mkState lf (0 :: ex) fc hd vn pp w (app ni ["logging"]) gs).
  rewrite tr_expr_call. cbn [is_name orb].
  rewrite (bind_Ok (enter_logfunc_context (Name q f)) _ _ tt s1)
    by (unfold enter_logfunc_context, bind, get; simpl; rewrite Hf; reflexivity).
  rewrite (bind_Ok _ _ s1 (Name q f) s1) by reflexivity.
  rewrite (bind_Ok _ _ s1 [Arg k st (SimpleString src); Arg k' st' (SimpleString lsrc)] s1)
    by reflexivity.
  unfold change_logfunc_to_logger. rewrite (bind_Ok get _ s1 s1 s1 eq_refl).
  replace (mem f (logfuncs s1)) with true by (symmetry; exact Hf). cbn [negb].
  assert (Hg : get_logfunc_arguments p [Arg k st (SimpleString src); Arg k' st' (SimpleString lsrc)] s1 =
               Ok (lvl, mkCSTString None (Some t) []) s1).
  { unfold get_logfunc_arguments.
    rewrite (bind_Ok _ _ s1 _ s1 (classify_plain p k st src t k' st' lsrc lvl s1 Hsrc Ht Hlsrc Hlvl)).
    reflexivity. }
  rewrite (bind_Ok _ _ s1 _ s1 Hg). cbv iota beta.
  rewrite (bind_Ok pop_excs _ s1 0 (mkState lf ex fc hd vn pp w (app ni ["logging"]) gs)) by reflexivity.
  reflexivity.
Qed.

Lemma plain_message_call_witness :
  tr_expr "logger" top_level_qualnames 100 false GlobalScope
    (Call (1, 0) (Name (1, 0) "eprint") [parg (dstr "it's done"); parg (dstr "INFO")])
    (init_state ["eprint"]) =
  Ok (Call (1, 0) (Attribute (Name nopos "logger") "info") [parg (dstr "it's done")])
     (set_needed_imports ["logging"] (init_state ["eprint"])).
Proof.
  apply (plain_message_call _ _ _ _ _ _ _ _ _ _ _ "it's done" _ _ _ "INFO"); reflexivity.
Defined.

(** Extra: an argument such as [file=sys.stderr] (an attribute of a name)
    is counted as an unrecognized argument, with the warning
    "1 unrecognized argument(s) found in logfunc call" and not the
    "File argument" one; the call is still classified by its message and
    level. *)
Theorem attribute_arg_unrecognized p k st src t k' st' lsrc lvl k3 st3 q3 x a s :
  Py.literal_eval src = Py.LStr t -> mem t LOGLEVELS = false ->
  Py.literal_eval lsrc = Py.LStr lvl -> mem lvl LOGLEVELS = true ->
  get_logfunc_arguments p [Arg k st (SimpleString src); Arg k' st' (SimpleString lsrc);
                           Arg k3 st3 (Attribute (Name q3 x) a)] s =
  Ok (lvl, mkCSTString None (Some t) [])
     (set_warnings (app (warnings s) [at_pos p "1 unrecognized argument(s) found in logfunc call"]) s).
Proof.
  intros Hsrc Ht Hlsrc Hlvl. unfold get_logfunc_arguments.
  assert (Hc : classify_args p [Arg k st (SimpleString src); Arg k' st' (SimpleString lsrc);
                                Arg k3 st3 (Attribute (Name q3 x) a)] None None 0 s =
               Ok (Some lvl, Some (mkCSTString None (Some t) []), 1) s).
  { cbn [classify_args].
    rewrite (bind_Ok _ _ s (Some (mkCSTString None (Some t) [])) s)
      by (apply gsc_ok; simpl; rewrite Hsrc; reflexivity).
    unfold literal_is_loglevel at 1. cbn [cs_literal]. rewrite Ht.
    unfold name_is_file at 1. cbn [cs_name].
    rewrite (bind_Ok _ _ s (Some (mkCSTString None (Some lvl) [])) s)
      by (apply gsc_ok; simpl; rewrite Hlsrc; reflexivity).
    unfold literal_is_loglevel at 1. cbn [cs_literal]. rewrite Hlvl.
    rewrite (bind_Ok _ _ s None s) by reflexivity.
    reflexivity. }
  rewrite (bind_Ok _ _ s _ s Hc). reflexivity.
Qed.

Lemma attribute_arg_unrecognized_witness :
  get_logfunc_arguments (1, 0)
    [parg (dstr "done"); parg (dstr "INFO");
     Arg (Some "file") NoStar (Attribute (Name (1, 30) "sys") "stderr")] (init_state ["eprint"]) =
  Ok ("INFO", mkCSTString None (Some "done") [])
     (set_warnings ["1 unrecognized argument(s) found in logfunc call :: line 1, column 0"]
        (init_state ["eprint"])).
Proof. apply attribute_arg_unrecognized; reflexivity. Defined.

(** *** [RemoveLogfuncDefAndImports] *)

Module RemoveLogfuncFacts.
Import RemoveLogfunc.

Section RInd.
Variable P : rstmt -> Prop.
Hypothesis HI : forall ns, P (RImport ns).
Hypothesis HD : forall n body, Forall P body -> P (RDef n body).
Hypothesis HC : forall body, Forall P body -> P (RCompound body).
Hypothesis HO : P ROther.
Fixpoint rstmt_ind' (s : rstmt) : P s :=
  match s with
  | RImport ns => HI ns
  | RDef n body =>
      HD n body ((fix go (l : list rstmt) : Forall P l :=
                    match l with
                    | [] => Forall_nil _
                    | x :: r => Forall_cons _ (rstmt_ind' x) (go r)
                    end) body)
  | RCompound body =>
      HC body ((fix go (l : list rstmt) : Forall P l :=
                  match l with
                  | [] => Forall_nil _
                  | x :: r => Forall_cons _ (rstmt_ind' x) (go r)
                  end) body)
  | ROther => HO
  end.
End RInd.

Lemma sched_refl lf sc : sched_ok lf sc sc.
Proof. intros x H. auto. Qed.

Lemma sched_trans lf a b c : sched_ok lf a b -> sched_ok lf b c -> sched_ok lf a c.
Proof. intros H1 H2 x Hx. destruct (H2 x Hx) as [H|H]; auto. Qed.

Lemma replace_logfunc_in x sc y : In y (replace_logfunc x sc) -> In y sc \/ y = x.
Proof.
  unfold replace_logfunc. destruct (existsb _ _); [auto|].
  intro H. apply in_app_or in H as [H|[H|[]]]; auto.
Qed.

Lemma sched_asname lf al sc : sched_ok lf sc (replace_logfunc (IAsName al) sc).
Proof. intros x Hx. apply replace_logfunc_in in Hx as [H|H]; [auto|discriminate]. Qed.

Lemma sched_name_value lf a sc :
  last_component a = lf -> sched_ok lf sc (replace_logfunc (name_value a) sc).
Proof.
  intros Ha x Hx. apply replace_logfunc_in in Hx as [H|H]; [auto|].
  right. unfold name_value, last_component in *. destruct (ia_name a) as [|c [|d r]]; try discriminate.
  injection H as ->. exact Ha.
Qed.

Lemma filter_loop_spec lf : forall names keep discard sc k d sc',
  filter_loop lf names keep discard sc = (k, d, sc') ->
  k = app keep (filter (kept_alias lf) names) /\
  d = app discard (filter (fun a => negb (kept_alias lf a)) names) /\
  sched_ok lf sc sc'.
Proof.
  induction names as [|a r IH]; intros keep discard sc k d sc' H.
  - injection H as <- <- <-. rewrite !app_nil_r. split; [|split]; auto using sched_refl.
  - simpl in H. unfold kept_alias at 1 2. simpl.
    destruct (String.eqb (last_component a) lf) eqn:Ha; simpl negb in *; cbv iota in H.
    + apply String.eqb_eq in Ha.
      destruct (ia_asname a) as [al|];
        apply IH in H as (-> & -> & S); rewrite <- app_assoc; (split; [reflexivity|split; [reflexivity|]]);
        (eapply sched_trans; [|exact S]); [apply sched_asname|apply sched_name_value; exact Ha].
    + apply IH in H as (-> & -> & S). rewrite <- app_assoc. auto.
Qed.

Lemma components_eqb_eq : forall a b, components_eqb a b = true -> a = b.
Proof.
  induction a as [|x a IH]; intros [|y b] H; try discriminate; [reflexivity|].
  simpl in H. apply andb_true_iff in H as [H1 H2]. apply String.eqb_eq in H1. subst.
  rewrite (IH b H2). reflexivity.
Qed.

Lemma components_eqb_refl : forall a, components_eqb a a = true.
Proof. induction a as [|x a IH]; [reflexivity|simpl; rewrite String.eqb_refl; exact IH]. Qed.

Lemma alias_eqb_refl a : alias_eqb a a = true.
Proof.
  unfold alias_eqb. rewrite components_eqb_refl. destruct (ia_asname a); [rewrite String.eqb_refl|];
    destruct (ia_comma a); reflexivity.
Qed.

Lemma alias_eqb_last_component a b : alias_eqb a b = true -> last_component a = last_component b.
Proof.
  unfold alias_eqb. intro H. apply andb_true_iff in H as [H _]. apply andb_true_iff in H as [H _].
  unfold last_component. rewrite (components_eqb_eq _ _ H). reflexivity.
Qed.

Lemma last_cons_ne {A} (a : A) l d : l <> [] -> last (a :: l) d = last l d.
Proof. destruct l; [congruence|reflexivity]. Qed.

Lemma in_last {A} (l : list A) d : l <> [] -> In (last l d) l.
Proof.
  intro H. rewrite (app_removelast_last d H) at 2. apply in_or_app. right. left. reflexivity.
Qed.

Lemma last_filter_true {A} (p : A -> bool) : forall l d,
  l <> [] -> p (last l d) = true -> last (filter p l) d = last l d.
Proof.
  induction l as [|a [|b r] IH]; intros d Hne Hp; [congruence| |].
  - simpl in *. rewrite Hp. reflexivity.
  - assert (Hbr : b :: r <> []) by discriminate.
    rewrite (last_cons_ne a (b :: r) d Hbr) in *.
    assert (Hf : filter p (b :: r) <> []).
    { intro E. assert (Hin : In (last (b :: r) d) (filter p (b :: r))).
      { apply filter_In. split; [apply in_last; exact Hbr|exact Hp]. }
      rewrite E in Hin. destruct Hin. }
    cbn [filter]. destruct (p a).
    + rewrite last_cons_ne by exact Hf. apply IH; assumption.
    + apply IH; assumption.
Qed.

Lemma leave_import_fst lf l sc :
  fst (leave_import_statement lf (Aliases l) sc) =
  match filter (kept_alias lf) l with
  | [] => None
  | kept =>
      Some (RImport (Aliases
        (if kept_alias lf (last l dflt_alias) then kept
         else app (removelast kept) [no_comma (last kept dflt_alias)])))
  end.
Proof.
  unfold leave_import_statement, filter_import_aliases.
  destruct (filter_loop lf l [] [] sc) as [[k d] sc1] eqn:E.
  apply filter_loop_spec in E as (-> & -> & _). cbn [app].
  destruct (filter (kept_alias lf) l) as [|a r] eqn:F; [reflexivity|].
  assert (Hl : l <> []) by (intro; subst; discriminate).
  fold dflt_alias.
  destruct (kept_alias lf (last l dflt_alias)) eqn:Hk.
  - rewrite <- F, (last_filter_true _ l dflt_alias Hl Hk), alias_eqb_refl. cbn [negb]. rewrite F. reflexivity.
  - assert (Hin : In (last (a :: r) dflt_alias) (filter (kept_alias lf) l))
      by (rewrite F; apply in_last; discriminate).
    apply filter_In in Hin as [_ Hka].
    destruct (alias_eqb (last (a :: r) dflt_alias) (last l dflt_alias)) eqn:Heq.
    + apply alias_eqb_last_component in Heq. unfold kept_alias in *. rewrite Heq in Hka. congruence.
    + destruct (removelast (a :: r)) eqn:Hr; reflexivity.
Qed.

Lemma remove_refs_sched lf : forall d sc,
  forallb (fun a => negb (kept_alias lf a)) d = true ->
  sched_ok lf sc (fold_left (fun sc n => remove_alias_references n sc) d sc).
Proof.
  induction d as [|a d IH]; intros sc Hd; [apply sched_refl|].
  simpl in Hd. apply andb_true_iff in Hd as [Ha Hd]. simpl.
  eapply sched_trans; [|apply IH; exact Hd].
  apply sched_name_value. unfold kept_alias in Ha. apply negb_true_iff in Ha.
  rewrite negb_false_iff in Ha. apply String.eqb_eq. exact Ha.
Qed.

Lemma leave_import_sched lf ns sc : sched_ok lf sc (snd (leave_import_statement lf ns sc)).
Proof.
  destruct ns as [|l]; [apply sched_refl|].
  unfold leave_import_statement, filter_import_aliases.
  destruct (filter_loop lf l [] [] sc) as [[k d] sc1] eqn:E.
  apply filter_loop_spec in E as (_ & -> & S). cbn [app].
  assert (Hs : sched_ok lf sc
                 (fold_left (fun sc n => remove_alias_references n sc)
                    (filter (fun a => negb (kept_alias lf a)) l) sc1)).
  { eapply sched_trans; [exact S|]. apply remove_refs_sched.
    apply forallb_forall. intros x Hx. apply filter_In in Hx as [_ Hx]. exact Hx. }
  destruct k as [|a r]; [exact Hs|].
  destruct (negb _); [destruct (app _ _)|]; exact Hs.
Qed.

Lemma in_removelast {A} (l : list A) x : In x (removelast l) -> In x l.
Proof.
  destruct l as [|a r]; [intros []|]. intro H.
  rewrite (app_removelast_last a (l := a :: r)) by discriminate. apply in_or_app. left. exact H.
Qed.

Lemma leave_import_no_logfunc lf ns sc y :
  fst (leave_import_statement lf ns sc) = Some y -> no_logfunc lf y = true.
Proof.
  destruct ns as [|l].
  - simpl. intro H. injection H as <-. reflexivity.
  - rewrite leave_import_fst.
    assert (Hk : forall x, In x (filter (kept_alias lf) l) -> kept_alias lf x = true)
      by (intros x Hx; apply filter_In in Hx as [_ Hx]; exact Hx).
    destruct (filter (kept_alias lf) l) as [|a r] eqn:F; [discriminate|].
    intro H. injection H as <-. cbn [no_logfunc]. apply forallb_forall. fold (kept_alias lf).
    destruct (kept_alias lf (last l dflt_alias)).
    + exact Hk.
    + intros x Hx. apply in_app_or in Hx as [Hx|[<-|[]]].
      * apply Hk, in_removelast, Hx.
      * apply (Hk (last (a :: r) dflt_alias)), in_last. discriminate.
Qed.

Lemma rl_stmt_def lf n body sc :
  rl_stmt lf (RDef n body) sc =
  let '(body', sc') := rl_body lf body sc in remove_logfunc lf n (RDef n body') sc'.
Proof. reflexivity. Qed.

Lemma rl_stmt_compound lf body sc :
  rl_stmt lf (RCompound body) sc =
  let '(body', sc') := rl_body lf body sc in (Some (RCompound body'), sc').
Proof. reflexivity. Qed.

Lemma rl_body_ok lf : forall body, Forall (rl_ok lf) body -> forall sc,
  forallb (no_logfunc lf) (fst (rl_body lf body sc)) = true /\
  sched_ok lf sc (snd (rl_body lf body sc)).
Proof.
  induction body as [|x r IH]; intros Hf sc; [split; [reflexivity|apply sched_refl]|].
  inversion Hf as [|? ? Hx Hr]; subst. cbn [rl_body].
  destruct (Hx sc) as [Hy Hs]. destruct (rl_stmt lf x sc) as [o sc1]. simpl in Hy, Hs.
  destruct (IH Hr sc1) as [Hb Hs2]. destruct (rl_body lf r sc1) as [r' sc2]. simpl in Hb, Hs2 |- *.
  split; [|eapply sched_trans; eassumption].
  destruct o as [y|]; [simpl; rewrite (Hy y eq_refl); exact Hb|exact Hb].
Qed.

Lemma rl_stmt_ok lf : forall s, rl_ok lf s.
Proof.
  apply rstmt_ind'.
  - intros ns sc. split; [apply leave_import_no_logfunc|apply leave_import_sched].
  - intros n body Hb sc. rewrite rl_stmt_def.
    destruct (rl_body_ok lf body Hb sc) as [Hn Hs]. destruct (rl_body lf body sc) as [b' sc'].
    simpl in Hn, Hs. unfold remove_logfunc.
    destruct (String.eqb n lf) eqn:E; simpl.
    + split; [discriminate|]. eapply sched_trans; [exact Hs|].
      intros x Hx. apply replace_logfunc_in in Hx as [H|H]; [auto|].
      injection H as ->. apply String.eqb_eq in E. auto.
    + split; [|exact Hs]. intros y H. injection H as <-. simpl. rewrite E. exact Hn.
  - intros body Hb sc. rewrite rl_stmt_compound.
    destruct (rl_body_ok lf body Hb sc) as [Hn Hs]. destruct (rl_body lf body sc) as [b' sc'].
    simpl in Hn, Hs |- *. split; [|exact Hs]. intros y H. injection H as <-. exact Hn.
  - intro sc. split; [intros y H; injection H as <-; reflexivity|apply sched_refl].
Qed.

Lemma rl_body_all_ok lf body sc :
  forallb (no_logfunc lf) (fst (rl_body lf body sc)) = true /\
  sched_ok lf sc (snd (rl_body lf body sc)).
Proof. apply rl_body_ok. apply Forall_forall. intros x _. apply rl_stmt_ok. Qed.

(** Extra: after [RemoveLogfuncDefAndImports], the module has no [def] of
    the log function and no import alias whose name ends in it, at any
    depth. *)
Theorem remove_logfunc_leaves_none lf body sc :
  forallb (no_logfunc lf) (fst (rl_body lf body sc)) = true.
Proof. apply rl_body_all_ok. Qed.

(** Extra: the only [str] that [RemoveLogfuncDefAndImports] schedules for
    [ReplaceFuncWithLoggerCommand] is the log function's own name: an
    [as] alias is scheduled as an [AsName] node and the module part of a
    dotted name as a node, never as a [str]. *)
Theorem remove_logfunc_schedules_only_name lf body sc x :
  In (IStr x) (snd (rl_body lf body sc)) -> In (IStr x) sc \/ x = lf.
Proof. apply rl_body_all_ok. Qed.

(** Extra: an import statement keeps, in order, the aliases whose name
    does not end in the log function, and is removed when there is none;
    when its last alias is removed, the new last alias loses its explicit
    comma. *)
Theorem import_keeps_other_aliases lf l sc :
  fst (leave_import_statement lf (Aliases l) sc) =
  match filter (kept_alias lf) l with
  | [] => None
  | kept =>
      Some (RImport (Aliases
        (if kept_alias lf (last l dflt_alias) then kept
         else app (removelast kept) [no_comma (last kept dflt_alias)])))
  end.
Proof. apply leave_import_fst. Qed.

Lemma remove_logfunc_schedules_only_name_witness :
  In (IStr "eprint") [] \/ "eprint" = "eprint".
Proof.
  apply (remove_logfunc_schedules_only_name "eprint"
           [RImport (Aliases [mkImportAlias ["eprint"] (Some "ep") false])] [] "eprint").
  vm_compute. auto.
Defined.

End RemoveLogfuncFacts.

(** *** [AddGlobalStatements] *)

(** Extra: [_ensure_blank_first_line] gives the statement a first leading
    line that is empty and has no comment, keeps every existing leading
    line (comments included) after it, and changes nothing when applied a
    second time. *)
Theorem ensure_blank_first_line_spec l :
  hd_error (AddGlobalStatements.ensure_blank_first_line l) = Some None /\
  (AddGlobalStatements.ensure_blank_first_line l = l \/
   AddGlobalStatements.ensure_blank_first_line l = None :: l) /\
  AddGlobalStatements.ensure_blank_first_line (AddGlobalStatements.ensure_blank_first_line l) =
  AddGlobalStatements.ensure_blank_first_line l.
Proof.
  destruct l as [|[c|] r]; cbn [AddGlobalStatements.ensure_blank_first_line hd_error];
    (split; [reflexivity|split]); auto.
Qed.
